(** * Chunked file transfer over MPI and XML-RPC: model and properties

    A shallow embedding of the coordinator, worker and sender code of
    [MPI File transfer/file_transfer.py], [MPI File transfer/server.py],
    [MPI File transfer/client.py], [RPC File transfer/server.py] and
    [RPC File transfer/client.py].

    Each Python process is a function in a state-and-exception monad over a
    [world]: the files on disk, the packets in flight, and the log of every
    [comm.send] issued so far.  Dictionaries are finite maps from strings to
    Python values; ranks, tags and chunk indices are natural numbers. *)

From stdpp Require Import gmap strings list fin_maps pretty sorting.
From Stdlib Require Import Strings.Byte.

Open Scope string_scope.
Open Scope list_scope.
Open Scope nat_scope.

(** ** Python values, messages and the world *)

#[warnings="-register-all"]
Inductive pyval :=
| PStr (s : string)
| PInt (n : nat)
| PList (l : list pyval)
| PBytes (b : list byte)
| PPercent (num den : nat).

(** [PPercent num den] is the float [(num / den) * 100], kept as the quotient
    it is computed from. *)

(** What [comm.send] pickles: the programs send dictionaries and, in
    [file_transfer.py], raw [bytes] chunks. *)
Inductive body :=
| Obj (d : gmap string pyval)
| Raw (b : list byte).

(** The [dest] argument of [comm.send].  [MPI.ANY_SOURCE] is mpi4py's
    receive-side wildcard; it is not the rank of any process, and a send to
    it is refused. *)
Inductive dest :=
| Rank (r : nat)
| ANY_SOURCE.

Record packet := Packet {
  p_src : nat;
  p_dst : dest;
  p_tag : nat;
  p_body : body
}.

Record world := World {
  files : gmap string (list byte);
  net : list packet;
  sent : list packet
}.

Definition world0 : world := World ∅ [] [].

Inductive exn :=
| ZeroDivisionError
| KeyError (k : string)
| TypeError
| AttributeError
| FileNotFoundError (p : string)
| ValueError
| MPIException.

(** A computation finishes with a value, raises, or waits forever in a
    blocking receive that nothing will match. *)
Inductive outcome (A : Type) :=
| Done (a : A)
| Raise (e : exn)
| Blocked.
Arguments Done {A} a.
Arguments Raise {A} e.
Arguments Blocked {A}.

Definition M (A : Type) : Type := world → outcome A * world.

Definition raise {A} (e : exn) : M A := λ w, (Raise e, w).

#[global] Instance M_ret : MRet M := λ A a w, (Done a, w).

#[global] Instance M_bind : MBind M := λ A B k m w,
  match m w with
  | (Done a, w') => k a w'
  | (Raise e, w') => (Raise e, w')
  | (Blocked, w') => (Blocked, w')
  end.

(** Waiting forever in a blocking receive. *)
Definition blocked {A} : M A := λ w, (Blocked, w).

(** [for x in xs: body x] *)
Fixpoint for_each {A} (xs : list A) (f : A → M unit) : M unit :=
  match xs with
  | [] => mret tt
  | x :: xs' => f x ;; for_each xs' f
  end.

(** *** Transport

    A receive names the sending rank and the tag.  A packet is delivered to
    the receive that names its sender and tag when it is addressed to the
    rank of the receiver, and to no other. *)

Definition addressed_to (me : nat) (d : dest) : bool :=
  match d with
  | Rank r => bool_decide (r = me)
  | ANY_SOURCE => false
  end.

Definition matches (me source tag : nat) (p : packet) : bool :=
  bool_decide (p_src p = source) && bool_decide (p_tag p = tag)
  && addressed_to me (p_dst p).

Fixpoint take_first (f : packet → bool) (l : list packet)
  : option (packet * list packet) :=
  match l with
  | [] => None
  | p :: l' =>
      if f p then Some (p, l')
      else match take_first f l' with
           | Some (q, r) => Some (q, p :: r)
           | None => None
           end
  end.

(** [self.comm.send(obj, dest=dst, tag=tag)] issued by rank [me].  A send to
    a rank puts the packet in flight.  A send to the wildcard raises the
    [MPI.Exception] of an invalid rank and puts nothing in flight; the log
    keeps the call that was issued. *)
Definition comm_send (me : nat) (b : body) (dst : dest) (tag : nat) : M unit :=
  λ w, let p := Packet me dst tag b in
       match dst with
       | Rank _ => (Done tt, World (files w) (net w ++ [p]) (sent w ++ [p]))
       | ANY_SOURCE =>
           (Raise MPIException, World (files w) (net w) (sent w ++ [p]))
       end.

(** [self.comm.recv(source=source, tag=tag)] issued by rank [me]. *)
Definition comm_recv (me source tag : nat) : M body :=
  λ w, match take_first (matches me source tag) (net w) with
       | Some (p, rest) => (Done (p_body p), World (files w) rest (sent w))
       | None => (Blocked, w)
       end.

(** *** Files

    The file system is a flat map from paths to contents.  Each file has one
    writer at a time, so a write through a handle opened with ['wb'] lands at
    the end of the file. *)

Definition open_wb (path : string) : M unit :=
  λ w, (Done tt, World (<[path := []]> (files w)) (net w) (sent w)).

Definition f_write (path : string) (data : list byte) : M unit :=
  λ w, (Done tt,
        World (<[path := default [] (files w !! path) ++ data]> (files w))
              (net w) (sent w)).

(** [open(path, 'rb').read()] *)
Definition read_file (path : string) : M (list byte) :=
  λ w, match files w !! path with
       | Some data => (Done data, w)
       | None => (Raise (FileNotFoundError path), w)
       end.

Definition os_remove (path : string) : M unit :=
  λ w, match files w !! path with
       | Some _ => (Done tt, World (delete path (files w)) (net w) (sent w))
       | None => (Raise (FileNotFoundError path), w)
       end.

(** *** Python operators and dictionary access *)

Definition floordiv (a b : nat) : M nat :=
  if decide (b = 0) then raise ZeroDivisionError else mret (a / b).

Definition pymod (a b : nat) : M nat :=
  if decide (b = 0) then raise ZeroDivisionError else mret (a mod b).

(** [d[k]] *)
Definition getitem (d : gmap string pyval) (k : string) : M pyval :=
  match d !! k with
  | Some v => mret v
  | None => raise (KeyError k)
  end.

(** Message fields are read with the type their senders give them; a value
    of another type raises [TypeError] where it is read. *)
Definition as_int (v : pyval) : M nat :=
  match v with PInt n => mret n | _ => raise TypeError end.

Definition as_str (v : pyval) : M string :=
  match v with PStr s => mret s | _ => raise TypeError end.

(** [msg.get(k) == s] *)
Definition get_is (d : gmap string pyval) (k s : string) : bool :=
  match d !! k with
  | Some (PStr s') => bool_decide (s' = s)
  | _ => false
  end.

(** A received object used as a dictionary. *)
Definition as_dict (b : body) : M (gmap string pyval) :=
  match b with
  | Obj d => mret d
  | Raw _ => raise AttributeError
  end.

(** [f"{filepath}.part{worker}"] *)
Definition part_path (filepath : string) (worker : nat) : string :=
  filepath +:+ ".part" +:+ pretty worker.

(** [os.path.join(upload_dir, f"received_{timestamp}_{filename}")]; the
    timestamp is what [datetime.now().strftime] returned. *)
Definition save_path (upload_dir timestamp filename : string) : string :=
  upload_dir +:+ "/" +:+ "received_" +:+ timestamp +:+ "_" +:+ filename.

(** What one wildcard receive of a master loop returns, with the readings of
    the environment its iteration makes: the request, the rank it came from,
    the formatted current time, and the listing that a scan of the upload
    directory produces. *)
Record arrival := Arrival {
  a_request : gmap string pyval;
  a_source : nat;
  a_timestamp : string;
  a_listing : pyval
}.

(** The state of a worker's receive loop. *)
Inductive wstate := Idle | Stopped.

(** [v == s] for a string literal [s] *)
Definition eq_str (v : pyval) (s : string) : bool :=
  match v with
  | PStr s' => bool_decide (s' = s)
  | _ => false
  end.

(** [enumerate(l)] *)
Fixpoint enumerate_from {A} (i : nat) (l : list A) : list (nat * A) :=
  match l with
  | [] => []
  | x :: l' => (i, x) :: enumerate_from (S i) l'
  end.

Definition enumerate {A} (l : list A) : list (nat * A) := enumerate_from 0 l.

(** *** Reading the source file in chunks (both MPI senders)

    [while True: chunk = f.read(chunk_size); if not chunk: break;
    chunks.append(chunk)].  Every iteration that continues consumes at least
    one byte, so [S (length data)] iterations are enough. *)

Fixpoint read_loop (fuel chunk_size : nat) (data : list byte)
  : list (list byte) :=
  match fuel with
  | 0 => []
  | S fuel' =>
      match take chunk_size data with
      | [] => []
      | chunk => chunk :: read_loop fuel' chunk_size (drop chunk_size data)
      end
  end.

Definition read_chunks (chunk_size : nat) (data : list byte)
  : list (list byte) :=
  read_loop (S (length data)) chunk_size data.

(** ** [MPI File transfer/file_transfer.py]: class [MPIFileTransfer] *)

Module FileTransfer.

#[warnings="-abstract-large-number"]
Definition chunk_size : nat := 65536.
Definition upload_dir : string := "mpi_uploads".

(** An entry of [assignments]: [(worker, start, end, part_file)]. *)
Definition assignment : Type := nat * nat * nat * string.

Definition start_of (a : assignment) : nat := a.1.1.2.
Definition end_of (a : assignment) : nat := a.1.2.
Definition worker_of (a : assignment) : nat := a.1.1.1.
Definition part_of (a : assignment) : string := a.2.

(** [f.write(chunk)] for a received object *)
Definition write_chunk (path : string) (b : body) : M unit :=
  match b with
  | Raw data => f_write path data
  | Obj _ => raise TypeError
  end.

Definition receive_file_direct (source : nat) (filepath : string)
    (num_chunks : nat) : M unit :=
  open_wb filepath ;;
  for_each (seq 0 num_chunks) (λ i,
    chunk ← comm_recv 0 source (100 + i);
    write_chunk filepath chunk).

(** One iteration of the [while True] loop of [worker_process]. *)
Definition worker_iteration (rank : nat) : M wstate :=
  b ← comm_recv rank 0 30;
  msg ← as_dict b;
  if get_is msg "task" "shutdown" then mret Stopped
  else if get_is msg "task" "receive" then
    source ← getitem msg "source" ≫= as_int;
    start ← getitem msg "start_chunk" ≫= as_int;
    end_ ← getitem msg "end_chunk" ≫= as_int;
    filepath ← getitem msg "filepath" ≫= as_str;
    open_wb filepath ;;
    for_each (seq start (end_ - start)) (λ i,
      chunk ← comm_recv rank source (100 + i);
      write_chunk filepath chunk) ;;
    comm_send rank (Obj {[ "status" := PStr "done" ]}) (Rank 0) 31 ;;
    mret Idle
  else mret Idle.

(** The loop itself; [break] on a shutdown message.  A worker that still
    loops when the fuel is spent is reported [Idle]. *)
Fixpoint worker_process (fuel rank : nat) : M wstate :=
  match fuel with
  | 0 => mret Idle
  | S fuel' =>
      st ← worker_iteration rank;
      match st with
      | Stopped => mret Stopped
      | Idle => worker_process fuel' rank
      end
  end.

Definition task_message (source start end_ : nat) (part_file : string)
  : gmap string pyval :=
  {[ "task" := PStr "receive";
     "source" := PInt source;
     "start_chunk" := PInt start;
     "end_chunk" := PInt end_;
     "filepath" := PStr part_file ]}.

(** The first loop of [coordinate_parallel_transfer] (lines 99-112), at
    position [i] of [enumerate(workers)] with the current [start] and
    [assignments]. *)
Fixpoint dispatch (source : nat) (filepath : string)
    (chunks_per_worker remainder i : nat) (workers : list nat)
    (start : nat) (assignments : list assignment) : M (list assignment) :=
  match workers with
  | [] => mret assignments
  | worker :: workers' =>
      let count :=
        chunks_per_worker + (if bool_decide (i < remainder) then 1 else 0) in
      let end_ := start + count in
      comm_send 0
        (Obj (task_message source start end_ (part_path filepath worker)))
        (Rank worker) 30 ;;
      dispatch source filepath chunks_per_worker remainder (S i) workers' end_
        (assignments ++ [(worker, start, end_, part_path filepath worker)])
  end.

(** [self.comm.recv(source=worker, tag=31)] on the master: while the master
    waits, the worker runs the pending iteration of its loop; then its
    completion notice is taken from the network.  This fixes one schedule of
    the processes: a worker runs when the master waits for it. *)
Definition recv_done (worker : nat) : M body :=
  worker_iteration worker ;; comm_recv 0 worker 31.

Definition collect (assignments : list assignment) : M unit :=
  for_each assignments (λ a, recv_done (worker_of a) ;; mret tt).

(** [sorted(assignments, key=lambda x: x[1])]: a stable sort on the start
    chunk. *)
Fixpoint insert_by_start (a : assignment) (l : list assignment)
  : list assignment :=
  match l with
  | [] => [a]
  | b :: l' =>
      if bool_decide (start_of a ≤ start_of b) then a :: b :: l'
      else b :: insert_by_start a l'
  end.

Fixpoint sorted_by_start (l : list assignment) : list assignment :=
  match l with
  | [] => []
  | a :: l' => insert_by_start a (sorted_by_start l')
  end.

(** Lines 118-122. *)
Definition reassemble (filepath : string) (assignments : list assignment)
  : M unit :=
  open_wb filepath ;;
  for_each (sorted_by_start assignments) (λ a,
    data ← read_file (part_of a);
    f_write filepath data ;;
    os_remove (part_of a)).

(** Lines 93-112: the partition of the chunks and its dispatch. *)
Definition assign_chunks (source : nat) (workers : list nat)
    (filepath : string) (num_chunks : nat) : M (list assignment) :=
  chunks_per_worker ← floordiv num_chunks (length workers);
  remainder ← pymod num_chunks (length workers);
  dispatch source filepath chunks_per_worker remainder 0 workers 0 [].

Definition coordinate_parallel_transfer (source : nat) (workers : list nat)
    (filepath : string) (num_chunks : nat) : M unit :=
  assignments ← assign_chunks source workers filepath num_chunks;
  collect assignments ;;
  reassemble filepath assignments.

(** [[i for i in range(1, self.size) if i != source]] *)
Definition available_workers (size source : nat) : list nat :=
  filter (λ i, i ≠ source) (seq 1 (size - 1)).

Definition ready_direct : gmap string pyval :=
  {[ "status" := PStr "ready"; "method" := PStr "direct" ]}.

Definition ready_parallel (selected_workers : list nat) (num_chunks : nat)
  : gmap string pyval :=
  {[ "status" := PStr "ready";
     "method" := PStr "parallel";
     "workers" := PList (PInt <$> selected_workers);
     "num_chunks" := PInt num_chunks ]}.

(** [handle_file_transfer(request, source)] on a communicator of [size]
    processes; [timestamp] is the formatted current time. *)
Definition handle_file_transfer (size : nat) (timestamp : string)
    (request : gmap string pyval) (source : nat) : M unit :=
  filename ← getitem request "filename" ≫= as_str;
  filesize ← getitem request "filesize";
  num_chunks ← getitem request "num_chunks" ≫= as_int;
  let filepath := save_path upload_dir timestamp filename in
  let workers := available_workers size source in
  (if bool_decide (workers = []) || bool_decide (num_chunks < 2) then
     comm_send 0 (Obj ready_direct) (Rank source) 20 ;;
     receive_file_direct source filepath num_chunks
   else
     let num_workers := length workers `min` num_chunks in
     let selected_workers := take num_workers workers in
     comm_send 0 (Obj (ready_parallel selected_workers num_chunks))
       (Rank source) 20 ;;
     coordinate_parallel_transfer source selected_workers filepath num_chunks) ;;
  comm_send 0 (Obj {[ "status" := PStr "complete" ]}) (Rank source) 21.

(** [broadcast_shutdown] *)
Definition broadcast_shutdown (size : nat) : M unit :=
  for_each (seq 1 (size - 1)) (λ i,
    comm_send 0 (Obj {[ "task" := PStr "shutdown" ]}) (Rank i) 30).

(** The request built by [send_file]. *)
Definition transfer_request (filename : string) (filesize num_chunks : nat)
  : gmap string pyval :=
  {[ "type" := PStr "send_file";
     "filename" := PStr filename;
     "filesize" := PInt filesize;
     "num_chunks" := PInt num_chunks ]}.

(** [send_file], lines 208-220: what the sender of rank [rank] does with the
    master's response.  Returns whether the chunks were sent. *)
Definition send_file_chunks (rank : nat) (response : gmap string pyval)
    (chunks : list (list byte)) : M bool :=
  status ← getitem response "status";
  if eq_str status "ready" then
    method ← getitem response "method";
    (if eq_str method "parallel" then
       workers ← getitem response "workers"; mret tt
     else mret tt) ;;
    for_each (enumerate chunks) (λ ic,
      comm_send rank (Raw ic.2) ANY_SOURCE (100 + ic.1)) ;;
    mret true
  else mret false.

(** [handle_list_request(source)]; [listing] is the list of entries that the
    scan of the upload directory produced. *)
Definition handle_list_request (listing : pyval) (source : nat) : M unit :=
  comm_send 0 (Obj {[ "status" := PStr "success"; "files" := listing ]})
    (Rank source) 40.

(** One iteration of the [while active] loop of [master_process], for the
    request that the wildcard receive returned.  The result is [active]. *)
Definition master_iteration (size : nat) (a : arrival) : M bool :=
  request_type ← getitem (a_request a) "type";
  if eq_str request_type "send_file" then
    handle_file_transfer size (a_timestamp a) (a_request a) (a_source a) ;;
    mret true
  else if eq_str request_type "list" then
    handle_list_request (a_listing a) (a_source a) ;; mret true
  else if eq_str request_type "shutdown" then
    broadcast_shutdown size ;; mret false
  else mret true.

(** [master_process] over the requests that arrive, in order; when none is
    left the master waits in its receive. *)
Fixpoint master_process (size : nat) (arrivals : list arrival) : M unit :=
  match arrivals with
  | [] => blocked
  | a :: arrivals' =>
      master_iteration size a ≫= λ active : bool,
        if active then master_process size arrivals' else mret tt
  end.

(** What a process of the launch runs. *)
Inductive role :=
| PrintUsage
| NoRole
| Master
| Worker
| Sender (filepath : string)
| Lister
| Stopper.

(** [run_server] *)
Definition run_server (rank : nat) : role :=
  if decide (rank = 0) then Master else Worker.

(** [main], for the command line [argv] that every process of the launch
    receives. *)
Definition main (argv : list string) (rank : nat) : role :=
  match argv !! 1 with
  | None => if decide (rank = 0) then PrintUsage else NoRole
  | Some mode =>
      if decide (mode = "--server") then run_server rank
      else if decide (mode = "--list") then
        if decide (rank = 0) then run_server rank
        else if decide (rank = 1) then Lister
        else NoRole
      else if decide (mode = "--shutdown") then
        if decide (rank = 0) then run_server rank
        else if decide (rank = 1) then Stopper
        else NoRole
      else
        if decide (rank = 0) then run_server rank
        else if decide (rank = 1) then Sender mode
        else NoRole
  end.

End FileTransfer.

(** ** [MPI File transfer/server.py]: class [MPIFileTransferServer] *)

Module Server.

Definition upload_dir : string := "mpi_uploads".

(** An entry of [chunk_assignments]: [(worker, start_chunk, end_chunk)]. *)
Definition assignment : Type := nat * nat * nat.

(** [chunk_data['data']] of a received object, as written to the file *)
Definition chunk_payload (b : body) : M (list byte) :=
  match b with
  | Obj d =>
      v ← getitem d "data";
      match v with
      | PBytes data => mret data
      | _ => raise TypeError
      end
  | Raw _ => raise TypeError
  end.

Definition receive_all_chunks (source_rank : nat) (filepath : string)
    (num_chunks : nat) : M unit :=
  open_wb filepath ;;
  for_each (seq 0 num_chunks) (λ chunk_num,
    chunk_data ← comm_recv 0 source_rank (100 + chunk_num);
    data ← chunk_payload chunk_data;
    f_write filepath data).

(** One iteration of the [while True] loop of [worker_process]. *)
Definition worker_iteration (rank : nat) : M wstate :=
  b ← comm_recv rank 0 10;
  work_data ← as_dict b;
  if get_is work_data "type" "shutdown" then mret Stopped
  else
    source_rank ← getitem work_data "source_rank" ≫= as_int;
    start_chunk ← getitem work_data "start_chunk" ≫= as_int;
    end_chunk ← getitem work_data "end_chunk" ≫= as_int;
    filepath ← getitem work_data "filepath" ≫= as_str;
    let temp_file := part_path filepath rank in
    open_wb temp_file ;;
    for_each (seq start_chunk (end_chunk - start_chunk)) (λ chunk_num,
      chunk_data ← comm_recv rank source_rank (100 + chunk_num);
      data ← chunk_payload chunk_data;
      f_write temp_file data) ;;
    comm_send rank (Obj {[ "status" := PStr "done" ]}) (Rank 0) 11 ;;
    mret Idle.

Fixpoint worker_process (fuel rank : nat) : M wstate :=
  match fuel with
  | 0 => mret Idle
  | S fuel' =>
      st ← worker_iteration rank;
      match st with
      | Stopped => mret Stopped
      | Idle => worker_process fuel' rank
      end
  end.

Definition work_data (source_rank start_chunk end_chunk : nat)
    (filepath : string) : gmap string pyval :=
  {[ "source_rank" := PInt source_rank;
     "start_chunk" := PInt start_chunk;
     "end_chunk" := PInt end_chunk;
     "filepath" := PStr filepath ]}.

(** Lines 72-85, at position [i] of [enumerate(workers)]. *)
Fixpoint dispatch (source_rank : nat) (filepath : string)
    (chunks_per_worker remainder i : nat) (workers : list nat)
    (start_chunk : nat) (chunk_assignments : list assignment)
  : M (list assignment) :=
  match workers with
  | [] => mret chunk_assignments
  | worker :: workers' =>
      let end_chunk :=
        start_chunk + chunks_per_worker
        + (if bool_decide (i < remainder) then 1 else 0) in
      comm_send 0 (Obj (work_data source_rank start_chunk end_chunk filepath))
        (Rank worker) 10 ;;
      dispatch source_rank filepath chunks_per_worker remainder (S i) workers'
        end_chunk (chunk_assignments ++ [(worker, start_chunk, end_chunk)])
  end.

(** Lines 66-85: the partition of the chunks and its dispatch. *)
Definition assign_chunks (source_rank num_workers : nat) (workers : list nat)
    (filepath : string) (num_chunks : nat) : M (list assignment) :=
  chunks_per_worker ← floordiv num_chunks num_workers;
  remainder ← pymod num_chunks num_workers;
  dispatch source_rank filepath chunks_per_worker remainder 0 workers 0 [].

(** [self.comm.recv(source=worker, tag=11)] on the master: the worker runs
    the pending iteration of its loop, then its notice is received. *)
Definition recv_done (worker : nat) : M body :=
  worker_iteration worker ;; comm_recv 0 worker 11.

(** [l.remove(x)]: drops the first occurrence. *)
Fixpoint remove_first (x : nat) (l : list nat) : list nat :=
  match l with
  | [] => []
  | y :: l' => if bool_decide (y = x) then l' else y :: remove_first x l'
  end.

(** Lines 53-55. *)
Definition available_workers (size source_rank : nat) : list nat :=
  let available := seq 1 (size - 1) in
  if bool_decide (source_rank ∈ available) then remove_first source_rank available
  else available.

Definition ready (filepath : string) : gmap string pyval :=
  {[ "status" := PStr "ready"; "filepath" := PStr filepath ]}.

(** The branch [request['type'] == 'transfer'] of [master_process], lines
    37-92. *)
Definition master_transfer (size : nat) (timestamp : string)
    (request : gmap string pyval) : M unit :=
  source_rank ← getitem request "source_rank" ≫= as_int;
  filename ← getitem request "filename" ≫= as_str;
  filesize ← getitem request "filesize" ≫= as_int;
  num_chunks ← getitem request "num_chunks" ≫= as_int;
  let filepath := save_path upload_dir timestamp filename in
  comm_send 0 (Obj (ready filepath)) (Rank source_rank) 2 ;;
  let available := available_workers size source_rank in
  if bool_decide (available = []) then
    receive_all_chunks source_rank filepath num_chunks
  else
    let num_workers := length available `min` num_chunks in
    let workers := take num_workers available in
    chunk_assignments ←
      assign_chunks source_rank num_workers workers filepath num_chunks;
    for_each chunk_assignments (λ a, recv_done a.1.1 ;; mret tt) ;;
    comm_send 0 (Obj {[ "status" := PStr "complete" ]}) (Rank source_rank) 3.

(** One iteration of the [while True] loop of [master_process], for the
    request received on tag 1.  The result is [false] on [break]. *)
Definition master_iteration (size : nat) (a : arrival) : M bool :=
  request_type ← getitem (a_request a) "type";
  if eq_str request_type "transfer" then
    master_transfer size (a_timestamp a) (a_request a) ;; mret true
  else if eq_str request_type "list" then
    source_rank ← getitem (a_request a) "source_rank" ≫= as_int;
    comm_send 0 (Obj {[ "status" := PStr "success"; "files" := a_listing a ]})
      (Rank source_rank) 4 ;;
    mret true
  else if eq_str request_type "shutdown" then
    for_each (seq 1 (size - 1)) (λ i,
      comm_send 0 (Obj {[ "type" := PStr "shutdown" ]}) (Rank i) 10) ;;
    mret false
  else mret true.

Fixpoint master_process (size : nat) (arrivals : list arrival) : M unit :=
  match arrivals with
  | [] => blocked
  | a :: arrivals' =>
      master_iteration size a ≫= λ continue : bool,
        if continue then master_process size arrivals' else mret tt
  end.

End Server.

(** ** [MPI File transfer/client.py]: class [MPIFileTransferClient] *)

Module Client.

Definition chunk_size : nat := FileTransfer.chunk_size.

Definition transfer_request (rank : nat) (filename : string)
    (filesize num_chunks : nat) : gmap string pyval :=
  {[ "type" := PStr "transfer";
     "source_rank" := PInt rank;
     "filename" := PStr filename;
     "filesize" := PInt filesize;
     "num_chunks" := PInt num_chunks ]}.

(** [send_file], lines 59-71: what the sender does with the master's
    response.  Returns whether the chunks were sent. *)
Definition send_file_chunks (rank : nat) (response : gmap string pyval)
    (chunks : list (list byte)) : M bool :=
  status ← getitem response "status";
  if eq_str status "ready" then
    filepath ← getitem response "filepath";
    for_each (enumerate chunks) (λ ic,
      comm_send rank (Obj {[ "data" := PBytes ic.2 ]}) ANY_SOURCE
        (100 + ic.1)) ;;
    mret true
  else mret false.

End Client.

(** ** [RPC File transfer/server.py]: class [FileTransferRPCServer] *)

Module RpcServer.

(** A file object opened with ['wb']: its path, its position and whether it
    has been closed. *)
Record handle := Handle {
  h_path : string;
  h_pos : nat;
  h_closed : bool
}.

(** An entry of [self.active_transfers]. *)
Record transfer := Transfer {
  t_filename : string;
  t_filepath : string;
  t_filesize : nat;
  t_received : nat;
  t_file_handle : handle
}.

(** What the server prints. *)
Inductive line :=
| LStart (filename : string) (filesize : nat) (transfer_id : string)
| LChunk (chunk_number : pyval) (nbytes received filesize : nat)
| LSuccess (filename filepath : string) (size : nat)
| LWarning (expected actual : nat)
| LCancel (filename : string)
| LError (message : string).

Record server := Server {
  disk : gmap string (list byte);
  active_transfers : gmap string transfer;
  stdout : list line
}.

Definition upload_dir : string := "uploads".
Definition chunk_size : nat := FileTransfer.chunk_size.

Definition error (message : string) : gmap string pyval :=
  {[ "status" := PStr "error"; "message" := PStr message ]}.

(** Writing [data] at position [pos] of a file: bytes before [pos] are kept
    (a gap is filled with zeros), [data] replaces what was there. *)
Definition write_at (pos : nat) (data old : list byte) : list byte :=
  take pos old ++ replicate (pos - length old) x00 ++ data
  ++ drop (pos + length data) old.

Section with_base64.

(** [base64.b64decode]: the decoded bytes, or the message of the
    [binascii.Error] it raises. *)
Variable b64decode : string → string + list byte.

(** [start_transfer(filename, filesize)]; [ts_id] and [ts_path] are the two
    readings of the clock. *)
Definition start_transfer (ts_id ts_path filename : string) (filesize : nat)
    (s : server) : gmap string pyval * server :=
  let transfer_id := filename +:+ "_" +:+ ts_id in
  let filepath := save_path upload_dir ts_path filename in
  let t := Transfer filename filepath filesize 0 (Handle filepath 0 false) in
  ({[ "status" := PStr "success";
      "transfer_id" := PStr transfer_id;
      "message" := PStr ("Transfer started for " +:+ filename) ]},
   Server (<[filepath := []]> (disk s))
          (<[transfer_id := t]> (active_transfers s))
          (stdout s ++ [LStart filename filesize transfer_id])).

Definition upload_chunk (transfer_id chunk_data : string)
    (chunk_number : pyval) (s : server) : gmap string pyval * server :=
  match active_transfers s !! transfer_id with
  | None => (error "Invalid transfer ID", s)
  | Some transfer =>
      match b64decode chunk_data with
      | inl message =>
          (error message,
           Server (disk s) (active_transfers s) (stdout s ++ [LError message]))
      | inr binary_data =>
          let h := t_file_handle transfer in
          if h_closed h then
            (error "write to closed file",
             Server (disk s) (active_transfers s)
                    (stdout s ++ [LError "write to closed file"]))
          else
            let old := default [] (disk s !! h_path h) in
            let disk' :=
              <[h_path h := write_at (h_pos h) binary_data old]> (disk s) in
            let received := t_received transfer + length binary_data in
            let transfer' :=
              Transfer (t_filename transfer) (t_filepath transfer)
                (t_filesize transfer) received
                (Handle (h_path h) (h_pos h + length binary_data) false) in
            let transfers' := <[transfer_id := transfer']> (active_transfers s) in
            if decide (t_filesize transfer = 0) then
              (error "division by zero",
               Server disk' transfers'
                      (stdout s ++ [LError "division by zero"]))
            else
              ({[ "status" := PStr "success";
                  "received" := PInt received;
                  "progress" := PPercent received (t_filesize transfer) ]},
               Server disk' transfers'
                 (stdout s ++ [LChunk chunk_number (length binary_data)
                                      received (t_filesize transfer)]))
      end
  end.

Definition close (h : handle) : handle := Handle (h_path h) (h_pos h) true.

Definition closed (t : transfer) : transfer :=
  Transfer (t_filename t) (t_filepath t) (t_filesize t) (t_received t)
    (close (t_file_handle t)).

Definition no_such_file (path : string) : string :=
  "[Errno 2] No such file or directory: '" +:+ path +:+ "'".

Definition size_mismatch (expected_size actual_size : nat) : string :=
  "Size mismatch: expected " +:+ pretty expected_size +:+ ", got "
  +:+ pretty actual_size.

Definition finish_transfer (transfer_id : string) (s : server)
  : gmap string pyval * server :=
  match active_transfers s !! transfer_id with
  | None => (error "Invalid transfer ID", s)
  | Some transfer =>
      let transfers' := <[transfer_id := closed transfer]> (active_transfers s) in
      match disk s !! t_filepath transfer with
      | None =>
          let message := no_such_file (t_filepath transfer) in
          (error message, Server (disk s) transfers' (stdout s ++ [LError message]))
      | Some content =>
          let actual_size := length content in
          let expected_size := t_filesize transfer in
          if decide (actual_size = expected_size) then
            ({[ "status" := PStr "success";
                "message" := PStr "Transfer completed successfully";
                "filepath" := PStr (t_filepath transfer);
                "size" := PInt actual_size ]},
             Server (disk s) (delete transfer_id transfers')
               (stdout s ++ [LSuccess (t_filename transfer)
                                      (t_filepath transfer) actual_size]))
          else
            ({[ "status" := PStr "warning";
                "message" := PStr (size_mismatch expected_size actual_size) ]},
             Server (disk s) transfers'
               (stdout s ++ [LWarning expected_size actual_size]))
      end
  end.

Definition cancel_transfer (transfer_id : string) (s : server)
  : gmap string pyval * server :=
  match active_transfers s !! transfer_id with
  | None => (error "Invalid transfer ID", s)
  | Some transfer =>
      ({[ "status" := PStr "success"; "message" := PStr "Transfer cancelled" ]},
       Server (delete (t_filepath transfer) (disk s))
              (delete transfer_id (active_transfers s))
              (stdout s ++ [LCancel (t_filename transfer)]))
  end.

End with_base64.

End RpcServer.

(** ** [RPC File transfer/client.py]: class [FileTransferRPCClient]

    A call through [self.proxy] runs the server's method on the server's
    state, between the marshalling of its arguments and that of its
    response. *)

Module RpcClient.

Import RpcServer.

Definition chunk_size : nat := FileTransfer.chunk_size.

(** The largest integer that XML-RPC carries, [xmlrpc.client.MAXINT]. *)
Definition MAXINT : N := 2147483647.

Definition marshals_int (n : nat) : bool := (N.of_nat n <=? MAXINT)%N.

(** Whether [xmlrpc.client.dumps] accepts a value: for an integer beyond the
    limit it raises [OverflowError]. *)
Fixpoint marshals (v : pyval) : bool :=
  match v with
  | PInt n => marshals_int n
  | PList l =>
      (fix all (l : list pyval) : bool :=
         match l with
         | [] => true
         | x :: l' => marshals x && all l'
         end) l
  | _ => true
  end.

Definition marshals_dict (d : gmap string pyval) : bool :=
  forallb (λ kv, marshals kv.2) (map_to_list d).

(** A call [self.proxy.method(args)].  The client marshals the arguments,
    the server runs the method and marshals its response.  [None] stands for
    the exception that the call raises in the client: the [OverflowError] of
    an argument that does not marshal, in which case the server is not
    reached, or the [Fault] that the server answers when its response does
    not marshal, after the method has run. *)
Definition call (args : list pyval)
    (method : server → gmap string pyval * server) (s : server)
  : option (gmap string pyval) * server :=
  if forallb marshals args then
    let '(response, s1) := method s in
    if marshals_dict response then (Some response, s1) else (None, s1)
  else (None, s).

(** [response['status'] == 'success']; [None] when the key is missing and the
    lookup raises. *)
Definition succeeded (response : gmap string pyval) : option bool :=
  status ← response !! "status"; Some (eq_str status "success").

(** Step 3 of [send_file], lines 93-101: the value [send_file] returns for
    the response of [finish_transfer]. *)
Definition finalize (response : gmap string pyval) : bool :=
  default false (succeeded response).

Section with_base64.

Variable b64encode : list byte → string.
Variable b64decode : string → string + list byte.

(** Step 2, lines 64-82: the upload loop over the chunks still to be read,
    after [chunk_number] chunks.  Returns whether every upload succeeded; an
    exception is caught by the handler of [send_file], which returns
    [False]. *)
Fixpoint upload_loop (transfer_id : string) (filesize chunk_number : nat)
    (chunks : list (list byte)) (s : server) : bool * server :=
  match chunks with
  | [] => (true, s)
  | chunk :: chunks' =>
      let chunk_number := chunk_number + 1 in
      let encoded_chunk := b64encode chunk in
      match call [PStr transfer_id; PStr encoded_chunk; PInt chunk_number]
              (upload_chunk b64decode transfer_id encoded_chunk
                 (PInt chunk_number)) s with
      | (None, s1) => (false, s1)
      | (Some response, s1) =>
          match succeeded response with
          | None => (false, s1)
          | Some false =>
              (false,
               (call [PStr transfer_id] (cancel_transfer transfer_id) s1).2)
          | Some true =>
              if decide (filesize = 0) then (false, s1)
              else upload_loop transfer_id filesize chunk_number chunks' s1
          end
      end
  end.

(** [send_file(filepath)] for an existing regular file named [filename]
    whose size was reported as [filesize] and whose content reads as
    [data]. *)
Definition send_file (ts_id ts_path filename : string) (filesize : nat)
    (data : list byte) (s : server) : bool * server :=
  match call [PStr filename; PInt filesize]
          (start_transfer ts_id ts_path filename filesize) s with
  | (None, s1) => (false, s1)
  | (Some response, s1) =>
      match succeeded response with
      | Some true =>
          match response !! "transfer_id" with
          | Some (PStr transfer_id) =>
              let '(uploaded, s2) :=
                upload_loop transfer_id filesize 0
                  (read_chunks chunk_size data) s1 in
              if uploaded then
                match call [PStr transfer_id] (finish_transfer transfer_id)
                        s2 with
                | (None, s3) => (false, s3)
                | (Some response, s3) => (finalize response, s3)
                end
              else (false, s2)
          | _ => (false, s1)
          end
      | _ => (false, s1)
      end
  end.

End with_base64.

End RpcClient.

(** ** Vocabulary of the properties *)

(** The chunk indices of a range [(start, end)], as [range(start, end)]. *)
Definition indices (r : nat * nat) : list nat := seq r.1 (r.2 - r.1).

(** [rs] splits the chunks [0 .. num_chunks-1] among [num_workers] workers in
    order, contiguously and in balance. *)
Record balanced_partition (num_chunks num_workers : nat)
    (rs : list (nat * nat)) : Prop := {
  bp_length : length rs = num_workers;
  bp_cover : concat (indices <$> rs) = seq 0 num_chunks;
  bp_first : ∀ r, rs !! 0 = Some r → r.1 = 0;
  bp_chain : ∀ k a b, rs !! k = Some a → rs !! S k = Some b → b.1 = a.2;
  bp_last : ∀ r, rs !! (num_workers - 1) = Some r → r.2 = num_chunks;
  bp_count : ∀ k r, rs !! k = Some r →
    r.1 < r.2 ∧
    r.2 - r.1 = num_chunks / num_workers
                + (if bool_decide (k < num_chunks mod num_workers) then 1 else 0);
  bp_balance : ∀ a b, a ∈ rs → b ∈ rs → a.2 - a.1 ≤ b.2 - b.1 + 1;
  bp_bigger :
    length (filter (λ r, r.2 - r.1 = num_chunks / num_workers + 1) rs)
    = num_chunks mod num_workers
}.

(** The ranges the dispatch loops compute for [n] workers from position [i]
    and chunk [start]. *)
Fixpoint ranges (chunks_per_worker remainder i n start : nat)
  : list (nat * nat) :=
  match n with
  | 0 => []
  | S n' =>
      let end_ :=
        start + chunks_per_worker
        + (if bool_decide (i < remainder) then 1 else 0) in
      (start, end_) :: ranges chunks_per_worker remainder (S i) n' end_
  end.

Definition range_of (a : FileTransfer.assignment) : nat * nat :=
  (FileTransfer.start_of a, FileTransfer.end_of a).

Definition task_packet (source : nat) (a : FileTransfer.assignment) : packet :=
  Packet 0 (Rank (FileTransfer.worker_of a)) 30
    (Obj (FileTransfer.task_message source (FileTransfer.start_of a)
            (FileTransfer.end_of a) (FileTransfer.part_of a))).

Definition work_packet (source_rank : nat) (filepath : string)
    (a : Server.assignment) : packet :=
  Packet 0 (Rank a.1.1) 10
    (Obj (Server.work_data source_rank a.1.2 a.2 filepath)).

(** The effect of sending [ps]. *)
Definition after_sending (ps : list packet) (w : world) : world :=
  World (files w) (net w ++ ps) (sent w ++ ps).

(** The assignments that pair [workers] with the ranges [rs]. *)
Definition paired (filepath : string) (workers : list nat)
    (rs : list (nat * nat)) : list FileTransfer.assignment :=
  zip_with (λ worker r, (worker, r.1, r.2, part_path filepath worker))
    workers rs.

Definition paired3 (workers : list nat) (rs : list (nat * nat))
  : list Server.assignment :=
  zip_with (λ worker r, (worker, r.1, r.2)) workers rs.

(** [m] sends only packets that satisfy [P], whatever its outcome. *)
Definition sends_only {A} (P : packet → Prop) (m : M A) : Prop :=
  ∀ w, ∃ l, sent (m w).2 = sent w ++ l ∧ Forall P l.

(** What was sent between the worlds [w0] and [w1]. *)
Definition sent_since (w0 w1 : world) : list packet :=
  drop (length (sent w0)) (sent w1).

(** The packets of tag [tag] among [ps]. *)
Definition with_tag (tag : nat) (ps : list packet) : list packet :=
  filter (λ p, p_tag p = tag) ps.

(** Ranks listed in ascending order. *)
Definition ascending (l : list nat) : Prop := StronglySorted lt l.

(** The value [[(worker, start, end), ...]] of a worker-to-range map. *)
Definition ranges_value (assignments : list FileTransfer.assignment) : pyval :=
  PList ((λ a, PList [PInt (FileTransfer.worker_of a);
                      PInt (FileTransfer.start_of a);
                      PInt (FileTransfer.end_of a)]) <$> assignments).

(** The dictionary [d] has the worker-to-range map of [assignments] among
    its values. *)
Definition carries_ranges (d : gmap string pyval)
    (assignments : list FileTransfer.assignment) : Prop :=
  ∃ k, d !! k = Some (ranges_value assignments).

(** The dictionary [d] announces Direct mode. *)
Definition direct_readiness (d : gmap string pyval) : Prop :=
  d !! "method" = Some (PStr "direct").

(** In the server state [s] the transfer [transfer_id], declared with
    [filesize] bytes, is registered with an open handle on [path] that stands
    at the end of the file, whose content is [content]; [received] bytes were
    counted so far. *)
Definition open_at_end (s : RpcServer.server) (transfer_id path : string)
    (filesize received : nat) (content : list byte) : Prop :=
  ∃ t, RpcServer.active_transfers s !! transfer_id = Some t
       ∧ RpcServer.h_path (RpcServer.t_file_handle t) = path
       ∧ RpcServer.h_closed (RpcServer.t_file_handle t) = false
       ∧ RpcServer.h_pos (RpcServer.t_file_handle t) = length content
       ∧ RpcServer.t_filepath t = path
       ∧ RpcServer.t_filesize t = filesize
       ∧ RpcServer.t_received t = received
       ∧ RpcServer.disk s !! path = Some content.

(** The content of the partial file of an assignment. *)
Definition content_of (fs : gmap string (list byte))
    (a : FileTransfer.assignment) : list byte :=
  default [] (fs !! FileTransfer.part_of a).




(** The completion notice of a worker of [file_transfer.py]. *)
Definition done_packet (worker : nat) : packet :=
  Packet worker (Rank 0) 31 (Obj {[ "status" := PStr "done" ]}).


(** The worker that owns the chunk [j] when [workers] are paired in order
    with the ranges [rs]: the first one whose range ends beyond [j]. *)
Fixpoint owner_of (workers : list nat) (rs : list (nat * nat)) (j : nat)
  : nat :=
  match workers, rs with
  | worker :: workers', r :: rs' =>
      if bool_decide (j < r.2) then worker else owner_of workers' rs' j
  | _, _ => 0
  end.

(** The owner of each chunk under the partition of [num_chunks] chunks
    among [workers] that both masters dispatch. *)
Definition partition_owner (workers : list nat) (num_chunks : nat)
  : nat → nat :=
  let n := length workers in
  owner_of workers (ranges (num_chunks / n) (num_chunks mod n) 0 n 0).


Definition srv_receiver (size source num_chunks : nat) : nat → nat :=
  let available := Server.available_workers size source in
  if bool_decide (available = []) then λ _, 0
  else partition_owner (take (length available `min` num_chunks) available)
         num_chunks.

(** The completion notice of a worker of [server.py]. *)
Definition done_notice (worker : nat) : packet :=
  Packet worker (Rank 0) 11 (Obj {[ "status" := PStr "done" ]}).


(** The shutdown notices of the two masters. *)
Definition shutdown_task (worker : nat) : packet :=
  Packet 0 (Rank worker) 30 (Obj {[ "task" := PStr "shutdown" ]}).

Definition shutdown_work (worker : nat) : packet :=
  Packet 0 (Rank worker) 10 (Obj {[ "type" := PStr "shutdown" ]}).

(** The answers of the two masters to a list request. *)
Definition listing_reply (a : arrival) : packet :=
  Packet 0 (Rank (a_source a)) 40
    (Obj {[ "status" := PStr "success"; "files" := a_listing a ]}).

Definition listing_answer (source_rank : nat) (a : arrival) : packet :=
  Packet 0 (Rank source_rank) 4
    (Obj {[ "status" := PStr "success"; "files" := a_listing a ]}).

(** The processes [xs] run to completion one after another; the results are
    collected in order. *)
Fixpoint for_all {A B} (xs : list A) (f : A → M B) : M (list B) :=
  match xs with
  | [] => mret []
  | x :: xs' => b ← f x; bs ← for_all xs' f; mret (b :: bs)
  end.



(** In the server state [s] the transfer [transfer_id] is registered, and
    both its handle and its entry name the file [path]. *)
Definition registered_on (s : RpcServer.server) (transfer_id path : string)
  : Prop :=
  ∃ t, RpcServer.active_transfers s !! transfer_id = Some t
       ∧ RpcServer.h_path (RpcServer.t_file_handle t) = path
       ∧ RpcServer.t_filepath t = path.

(** ** The chunk partition *)

Section Ranges.

Variables chunks_per_worker remainder : nat.

Abbreviation rg := (ranges chunks_per_worker remainder).

Lemma ranges_length i n start : length (rg i n start) = n.
Proof. revert i start. induction n as [|n IH]; intros; simpl; [done|]. by rewrite IH. Qed.

Lemma ranges_lookup i n start k r :
  rg i n start !! k = Some r →
  r.1 = start + k * chunks_per_worker + (((i + k) `min` remainder) - (i `min` remainder))
  ∧ r.2 = r.1 + chunks_per_worker + (if bool_decide (i + k < remainder) then 1 else 0).
Proof.
  revert i start k. induction n as [|n IH]; intros i start k; simpl; [done|].
  destruct k as [|k]; simpl.
  - intros [= <-]. simpl. rewrite !Nat.add_0_r. split; [lia|done].
  - intros H. apply IH in H as [-> ->].
    replace (S i + k) with (i + S k) by lia.
    split; [|done]. case_bool_decide; lia.
Qed.

Lemma ranges_cover i n start :
  concat (indices <$> rg i n start)
  = seq start (n * chunks_per_worker
               + (((i + n) `min` remainder) - (i `min` remainder))).
Proof.
  revert i start. induction n as [|n IH]; intros i start; simpl.
  - by replace (i + 0) with i by lia; rewrite Nat.sub_diag.
  - unfold indices at 1. simpl. rewrite IH.
    set (c := if bool_decide (i < remainder) then 1 else 0).
    assert (Hc : ((S (i + n)) `min` remainder) - (i `min` remainder)
                 = c + (((S i + n) `min` remainder) - ((S i) `min` remainder)))
      by (subst c; case_bool_decide; lia).
    replace (start + chunks_per_worker + c - start)
      with (chunks_per_worker + c) by lia.
    replace (start + chunks_per_worker + c)
      with (start + (chunks_per_worker + c)) by lia.
    rewrite <- seq_app. f_equal.
    replace (i + S n) with (S (i + n)) by lia. lia.
Qed.

Lemma ranges_bigger i n start :
  length (filter (λ r, r.2 - r.1 = chunks_per_worker + 1) (rg i n start))
  = ((i + n) `min` remainder) - (i `min` remainder).
Proof.
  revert i start. induction n as [|n IH]; intros i start; simpl.
  - replace (i + 0) with i by lia. lia.
  - rewrite filter_cons. simpl. case_decide as Hd; simpl; rewrite IH;
      case_bool_decide; lia.
Qed.

End Ranges.

Lemma ranges_balanced num_chunks n :
  1 ≤ n → n ≤ num_chunks →
  balanced_partition num_chunks n
    (ranges (num_chunks / n) (num_chunks mod n) 0 n 0).
Proof.
  intros Hn Hle.
  assert (Hdm : num_chunks = n * (num_chunks / n) + num_chunks mod n)
    by (apply Nat.div_mod_eq).
  assert (Hlt : num_chunks mod n < n) by (apply Nat.mod_upper_bound; lia).
  assert (Hpos : 1 ≤ num_chunks / n) by (apply Nat.div_le_lower_bound; lia).
  remember (num_chunks / n) as b eqn:Hb. remember (num_chunks mod n) as m eqn:Hm.
  assert (Hlk : ∀ k r, ranges b m 0 n 0 !! k = Some r →
            k < n ∧ r.1 = k * b + k `min` m
            ∧ r.2 = r.1 + b + (if bool_decide (k < m) then 1 else 0)).
  { intros k r H. split.
    - apply lookup_lt_Some in H. by rewrite ranges_length in H.
    - apply ranges_lookup in H. simpl in H. destruct H as [H1 H2]. split; [lia|done]. }
  split; rewrite <- ?Hb, <- ?Hm.
  - apply ranges_length.
  - rewrite ranges_cover. f_equal. simpl. lia.
  - intros r H. apply Hlk in H as (_ & H1 & _). rewrite H1. simpl. lia.
  - intros k a c Ha Hc. apply Hlk in Ha as (_ & Ha1 & Ha2).
    apply Hlk in Hc as (_ & Hc1 & _). rewrite Hc1, Ha2, Ha1.
    case_bool_decide; nia.
  - intros r H. apply Hlk in H as (_ & H1 & H2). rewrite H2, H1.
    rewrite bool_decide_eq_false_2 by lia. nia.
  - intros k r H. apply Hlk in H as (_ & H1 & H2). rewrite H2.
    case_bool_decide; lia.
  - intros a c [ka Ha]%list_elem_of_lookup [kc Hc]%list_elem_of_lookup.
    apply Hlk in Ha as (_ & _ & ->). apply Hlk in Hc as (_ & _ & ->).
    repeat case_bool_decide; lia.
  - rewrite ranges_bigger. simpl. lia.
Qed.

(** ** Running the monad *)

Lemma bind_run {A B} (m : M A) (k : A → M B) w :
  (m ≫= k) w = match m w with
               | (Done a, w') => k a w'
               | (Raise e, w') => (Raise e, w')
               | (Blocked, w') => (Blocked, w')
               end.
Proof. reflexivity. Qed.

Lemma bind_done {A B} (m : M A) (k : A → M B) w a w' :
  m w = (Done a, w') → (m ≫= k) w = k a w'.
Proof. intros H. by rewrite bind_run, H. Qed.

Lemma after_sending_app ps qs w :
  after_sending qs (after_sending ps w) = after_sending (ps ++ qs) w.
Proof. unfold after_sending. simpl. by rewrite !app_assoc. Qed.

Lemma after_sending_nil w : after_sending [] w = w.
Proof. destruct w. unfold after_sending. simpl. by rewrite !app_nil_r. Qed.

Lemma comm_send_run me b r tag w :
  comm_send me b (Rank r) tag w
  = (Done tt, after_sending [Packet me (Rank r) tag b] w).
Proof. reflexivity. Qed.

(** ** The dispatch loops compute [ranges] *)

Lemma ft_dispatch_run source filepath cpw rem i workers start acc w :
  FileTransfer.dispatch source filepath cpw rem i workers start acc w
  = let new := paired filepath workers (ranges cpw rem i (length workers) start) in
    (Done (acc ++ new), after_sending (task_packet source <$> new) w).
Proof.
  revert i start acc w.
  induction workers as [|worker workers IH]; intros i start acc w; simpl.
  - by rewrite app_nil_r, after_sending_nil.
  - erewrite bind_done by apply comm_send_run.
    rewrite IH. simpl. rewrite after_sending_app, <- app_assoc, !Nat.add_assoc. done.
Qed.

Lemma srv_dispatch_run source_rank filepath cpw rem i workers start acc w :
  Server.dispatch source_rank filepath cpw rem i workers start acc w
  = let new := paired3 workers (ranges cpw rem i (length workers) start) in
    (Done (acc ++ new),
     after_sending (work_packet source_rank filepath <$> new) w).
Proof.
  revert i start acc w.
  induction workers as [|worker workers IH]; intros i start acc w; simpl.
  - by rewrite app_nil_r, after_sending_nil.
  - erewrite bind_done by apply comm_send_run.
    rewrite IH. simpl. rewrite after_sending_app, <- app_assoc. done.
Qed.

Lemma paired_ranges filepath workers rs :
  length rs = length workers → range_of <$> paired filepath workers rs = rs.
Proof.
  revert rs. induction workers as [|x workers IH]; intros [|[s e] rs] H;
    simpl in *; try done.
  f_equal. apply IH. lia.
Qed.

Lemma paired_workers filepath workers rs :
  length rs = length workers →
  FileTransfer.worker_of <$> paired filepath workers rs = workers.
Proof.
  revert rs. induction workers as [|x workers IH]; intros [|[s e] rs] H;
    simpl in *; try done.
  f_equal. apply IH. lia.
Qed.

Lemma paired3_ranges workers rs :
  length rs = length workers →
  (λ a : Server.assignment, (a.1.2, a.2)) <$> paired3 workers rs = rs.
Proof.
  revert rs. induction workers as [|x workers IH]; intros [|[s e] rs] H;
    simpl in *; try done.
  f_equal. apply IH. lia.
Qed.

Lemma paired3_workers workers rs :
  length rs = length workers →
  (λ a : Server.assignment, a.1.1) <$> paired3 workers rs = workers.
Proof.
  revert rs. induction workers as [|x workers IH]; intros [|[s e] rs] H;
    simpl in *; try done.
  f_equal. apply IH. lia.
Qed.

Lemma ft_assign_chunks_run source workers filepath num_chunks w :
  workers ≠ [] →
  FileTransfer.assign_chunks source workers filepath num_chunks w
  = let n := length workers in
    let new := paired filepath workers
                 (ranges (num_chunks / n) (num_chunks mod n) 0 n 0) in
    (Done new, after_sending (task_packet source <$> new) w).
Proof.
  intros Hne. unfold FileTransfer.assign_chunks, floordiv, pymod.
  destruct workers as [|x workers]; [done|].
  rewrite !decide_False by (simpl; lia).
  cbv beta iota delta [mbind M_bind mret M_ret]. by rewrite ft_dispatch_run.
Qed.

Lemma srv_assign_chunks_run source_rank workers filepath num_chunks w :
  workers ≠ [] →
  Server.assign_chunks source_rank (length workers) workers filepath num_chunks w
  = let n := length workers in
    let new := paired3 workers
                 (ranges (num_chunks / n) (num_chunks mod n) 0 n 0) in
    (Done new, after_sending (work_packet source_rank filepath <$> new) w).
Proof.
  intros Hne. unfold Server.assign_chunks, floordiv, pymod.
  destruct workers as [|x workers]; [done|].
  rewrite !decide_False by (simpl; lia).
  cbv beta iota delta [mbind M_bind mret M_ret]. by rewrite srv_dispatch_run.
Qed.

(** C2.  For [num_chunks ≥ 1] and [1 ≤ num_workers ≤ num_chunks] the
    partition the coordinator computes and dispatches, in
    [file_transfer.py] as in [server.py], pairs the workers in selection
    order with contiguous, non-overlapping ranges that cover
    [0 .. num_chunks-1] exactly once: the range of the first worker starts at
    0, every range starts where the previous one ends, the last one ends at
    [num_chunks]; the first [num_chunks mod num_workers] workers get
    [num_chunks // num_workers + 1] chunks and the others
    [num_chunks // num_workers], so the counts differ by at most one. *)
Theorem partition_is_balanced source filepath workers num_chunks w :
  1 ≤ num_chunks →
  1 ≤ length workers →
  length workers ≤ num_chunks →
  (∃ assignments w',
     FileTransfer.assign_chunks source workers filepath num_chunks w
     = (Done assignments, w')
     ∧ FileTransfer.worker_of <$> assignments = workers
     ∧ balanced_partition num_chunks (length workers) (range_of <$> assignments))
  ∧ (∃ chunk_assignments w',
     Server.assign_chunks source (length workers) workers filepath num_chunks w
     = (Done chunk_assignments, w')
     ∧ (λ a : Server.assignment, a.1.1) <$> chunk_assignments = workers
     ∧ balanced_partition num_chunks (length workers)
         ((λ a : Server.assignment, (a.1.2, a.2)) <$> chunk_assignments)).
Proof.
  intros Hc Hw Hle.
  assert (Hne : workers ≠ []) by (destruct workers; simpl in *; [lia|done]).
  pose proof (ranges_balanced num_chunks (length workers) Hw Hle) as Hb.
  pose proof (ranges_length (num_chunks / length workers)
                (num_chunks mod length workers) 0 (length workers) 0) as Hl.
  split.
  - eexists _, _. split; [by apply ft_assign_chunks_run|]. simpl.
    rewrite paired_workers, paired_ranges by done. done.
  - eexists _, _. split; [by apply srv_assign_chunks_run|]. simpl.
    rewrite paired3_workers, paired3_ranges by done. done.
Qed.

Lemma partition_is_balanced_witness :
  (∃ assignments w',
     FileTransfer.assign_chunks 1 [2; 3] "f" 3 world0 = (Done assignments, w')
     ∧ FileTransfer.worker_of <$> assignments = [2; 3]
     ∧ balanced_partition 3 2 (range_of <$> assignments))
  ∧ (∃ chunk_assignments w',
     Server.assign_chunks 1 2 [2; 3] "f" 3 world0 = (Done chunk_assignments, w')
     ∧ (λ a : Server.assignment, a.1.1) <$> chunk_assignments = [2; 3]
     ∧ balanced_partition 3 2
         ((λ a : Server.assignment, (a.1.2, a.2)) <$> chunk_assignments)).
Proof. apply (partition_is_balanced 1 "f" [2; 3] 3 world0); simpl; lia. Defined.

(** ** Reading a file in chunks *)

Lemma read_loop_concat fuel chunk_size data :
  chunk_size ≠ 0 → length data < fuel →
  concat (read_loop fuel chunk_size data) = data.
Proof.
  intros Hcs. revert data. induction fuel as [|fuel IH]; intros data Hlen; [lia|].
  simpl. destruct (take chunk_size data) as [|b chunk] eqn:Htake.
  - destruct data, chunk_size; simpl in *; done.
  - rewrite <- Htake. cbn [concat]. rewrite IH.
    + apply take_drop.
    + rewrite length_drop. destruct data; [by rewrite take_nil in Htake|].
      simpl in *. lia.
Qed.

(** The chunks of a file, concatenated, are the file: the fuel of
    [read_chunks] is enough. *)
Lemma read_chunks_concat chunk_size data :
  chunk_size ≠ 0 → concat (read_chunks chunk_size data) = data.
Proof. intros Hcs. apply read_loop_concat; [done|lia]. Qed.





(** ** What a computation sends *)

Section Sends.

Context {A : Type} (P : packet → Prop).

Lemma sends_only_ret (a : A) : sends_only P (mret a).
Proof. intros w. exists []. by rewrite app_nil_r. Qed.

Lemma sends_only_raise e : sends_only P (raise e : M A).
Proof. intros w. exists []. by rewrite app_nil_r. Qed.

Lemma sends_only_bind {B} (m : M B) (k : B → M A) :
  sends_only P m → (∀ b, sends_only P (k b)) → sends_only P (m ≫= k).
Proof.
  intros Hm Hk w. rewrite bind_run.
  destruct (Hm w) as (l & Hl & HP). destruct (m w) as [[b| |] w1]; simpl in *.
  - destruct (Hk b w1) as (l' & Hl' & HP'). exists (l ++ l').
    rewrite Hl', Hl, app_assoc. split; [done|]. by apply Forall_app.
  - by exists l.
  - by exists l.
Qed.

Lemma sends_only_weaken (Q : packet → Prop) (m : M A) :
  (∀ p, Q p → P p) → sends_only Q m → sends_only P m.
Proof.
  intros HQ Hm w. destruct (Hm w) as (l & Hl & Hall). exists l.
  split; [done|]. eapply Forall_impl; eauto.
Qed.

End Sends.

Lemma sends_only_comm_send P me b dst tag :
  P (Packet me dst tag b) → sends_only P (comm_send me b dst tag).
Proof.
  intros HP w. exists [Packet me dst tag b].
  split; [by destruct dst|]. by constructor.
Qed.

Lemma sends_only_comm_recv P me source tag :
  sends_only P (comm_recv me source tag).
Proof.
  intros w. exists []. rewrite app_nil_r. unfold comm_recv.
  by destruct (take_first _ _) as [[p r]|].
Qed.

Lemma sends_only_open_wb P path : sends_only P (open_wb path).
Proof. intros w. exists []. by rewrite app_nil_r. Qed.

Lemma sends_only_f_write P path data : sends_only P (f_write path data).
Proof. intros w. exists []. by rewrite app_nil_r. Qed.

Lemma sends_only_read_file P path : sends_only P (read_file path).
Proof.
  intros w. exists []. rewrite app_nil_r. unfold read_file.
  by destruct (files w !! path).
Qed.

Lemma sends_only_os_remove P path : sends_only P (os_remove path).
Proof.
  intros w. exists []. rewrite app_nil_r. unfold os_remove.
  by destruct (files w !! path).
Qed.

Lemma sends_only_floordiv P a b : sends_only P (floordiv a b).
Proof. unfold floordiv. case_decide; [apply sends_only_raise|apply sends_only_ret]. Qed.

Lemma sends_only_pymod P a b : sends_only P (pymod a b).
Proof. unfold pymod. case_decide; [apply sends_only_raise|apply sends_only_ret]. Qed.

Lemma sends_only_getitem P d k : sends_only P (getitem d k).
Proof. unfold getitem. destruct (d !! k); [apply sends_only_ret|apply sends_only_raise]. Qed.

Lemma sends_only_as_int P v : sends_only P (as_int v).
Proof. destruct v; first [apply sends_only_ret|apply sends_only_raise]. Qed.

Lemma sends_only_as_str P v : sends_only P (as_str v).
Proof. destruct v; first [apply sends_only_ret|apply sends_only_raise]. Qed.

Lemma sends_only_as_dict P b : sends_only P (as_dict b).
Proof. destruct b; first [apply sends_only_ret|apply sends_only_raise]. Qed.

Lemma sends_only_for_each {A} P (xs : list A) (f : A → M unit) :
  (∀ x, sends_only P (f x)) → sends_only P (for_each xs f).
Proof.
  intros Hf. induction xs as [|x xs IH]; simpl.
  - apply sends_only_ret.
  - apply sends_only_bind; [apply Hf|by intros _].
Qed.

Lemma sends_only_write_chunk P path b :
  sends_only P (FileTransfer.write_chunk path b).
Proof. destruct b; [apply sends_only_raise|apply sends_only_f_write]. Qed.

Lemma sends_only_chunk_payload P b : sends_only P (Server.chunk_payload b).
Proof.
  destruct b as [d|]; simpl; [|apply sends_only_raise].
  apply sends_only_bind; [apply sends_only_getitem|].
  intros []; first [apply sends_only_ret|apply sends_only_raise].
Qed.

(** Closes goals [sends_only P m] by following the structure of [m]. *)
Ltac sends_step :=
  first
    [ apply sends_only_ret | apply sends_only_raise
    | apply sends_only_comm_recv | apply sends_only_open_wb
    | apply sends_only_f_write | apply sends_only_read_file
    | apply sends_only_os_remove | apply sends_only_floordiv
    | apply sends_only_pymod | apply sends_only_getitem
    | apply sends_only_as_int | apply sends_only_as_str
    | apply sends_only_as_dict | apply sends_only_write_chunk
    | apply sends_only_chunk_payload
    | apply sends_only_comm_send; simpl; done
    | apply sends_only_for_each; intros ?
    | apply sends_only_bind; [|intros ?]
    | match goal with |- sends_only _ (if ?c then _ else _) => destruct c end
    | match goal with |- sends_only _ (match ?c with _ => _ end) => destruct c end ].

Ltac sends := repeat sends_step.

Lemma ft_receive_file_direct_sends P source filepath num_chunks :
  sends_only P (FileTransfer.receive_file_direct source filepath num_chunks).
Proof. unfold FileTransfer.receive_file_direct. sends. Qed.

Lemma ft_worker_iteration_sends rank :
  sends_only (λ p, p_tag p = 31) (FileTransfer.worker_iteration rank).
Proof. unfold FileTransfer.worker_iteration. sends. Qed.

Lemma ft_collect_reassemble_sends filepath assignments :
  sends_only (λ p, p_tag p = 31)
    (FileTransfer.collect assignments ;;
     FileTransfer.reassemble filepath assignments).
Proof.
  unfold FileTransfer.collect, FileTransfer.reassemble, FileTransfer.recv_done.
  sends.
Qed.

Lemma srv_receive_all_chunks_sends P source_rank filepath num_chunks :
  sends_only P (Server.receive_all_chunks source_rank filepath num_chunks).
Proof. unfold Server.receive_all_chunks. sends. Qed.

Lemma srv_worker_iteration_sends rank :
  sends_only (λ p, p_tag p = 11) (Server.worker_iteration rank).
Proof. unfold Server.worker_iteration. sends. Qed.

(** ** Reading the requests *)

Lemma ft_request_filename filename filesize num_chunks :
  FileTransfer.transfer_request filename filesize num_chunks !! "filename"
  = Some (PStr filename).
Proof. reflexivity. Qed.

Lemma ft_request_filesize filename filesize num_chunks :
  FileTransfer.transfer_request filename filesize num_chunks !! "filesize"
  = Some (PInt filesize).
Proof. reflexivity. Qed.

Lemma ft_request_num_chunks filename filesize num_chunks :
  FileTransfer.transfer_request filename filesize num_chunks !! "num_chunks"
  = Some (PInt num_chunks).
Proof. reflexivity. Qed.

Lemma client_request_source_rank rank filename filesize num_chunks :
  Client.transfer_request rank filename filesize num_chunks !! "source_rank"
  = Some (PInt rank).
Proof. reflexivity. Qed.

Lemma client_request_filename rank filename filesize num_chunks :
  Client.transfer_request rank filename filesize num_chunks !! "filename"
  = Some (PStr filename).
Proof. reflexivity. Qed.

Lemma client_request_filesize rank filename filesize num_chunks :
  Client.transfer_request rank filename filesize num_chunks !! "filesize"
  = Some (PInt filesize).
Proof. reflexivity. Qed.

Lemma client_request_num_chunks rank filename filesize num_chunks :
  Client.transfer_request rank filename filesize num_chunks !! "num_chunks"
  = Some (PInt num_chunks).
Proof. reflexivity. Qed.

(** ** The choice of strategy *)

Lemma ft_handle_run size timestamp filename filesize num_chunks source :
  FileTransfer.handle_file_transfer size timestamp
    (FileTransfer.transfer_request filename filesize num_chunks) source
  = let filepath := save_path FileTransfer.upload_dir timestamp filename in
    let workers := FileTransfer.available_workers size source in
    (if bool_decide (workers = []) || bool_decide (num_chunks < 2) then
       comm_send 0 (Obj FileTransfer.ready_direct) (Rank source) 20 ;;
       FileTransfer.receive_file_direct source filepath num_chunks
     else
       let selected_workers := take (length workers `min` num_chunks) workers in
       comm_send 0 (Obj (FileTransfer.ready_parallel selected_workers num_chunks))
         (Rank source) 20 ;;
       FileTransfer.coordinate_parallel_transfer source selected_workers
         filepath num_chunks) ;;
    comm_send 0 (Obj {[ "status" := PStr "complete" ]}) (Rank source) 21.
Proof.
  unfold FileTransfer.handle_file_transfer, getitem.
  rewrite ft_request_filename, ft_request_filesize, ft_request_num_chunks.
  reflexivity.
Qed.

Lemma srv_master_run size timestamp source_rank filename filesize num_chunks :
  Server.master_transfer size timestamp
    (Client.transfer_request source_rank filename filesize num_chunks)
  = let filepath := save_path Server.upload_dir timestamp filename in
    comm_send 0 (Obj (Server.ready filepath)) (Rank source_rank) 2 ;;
    let available := Server.available_workers size source_rank in
    if bool_decide (available = []) then
      Server.receive_all_chunks source_rank filepath num_chunks
    else
      let num_workers := length available `min` num_chunks in
      let workers := take num_workers available in
      chunk_assignments ←
        Server.assign_chunks source_rank num_workers workers filepath num_chunks;
      for_each chunk_assignments (λ a, Server.recv_done a.1.1 ;; mret tt) ;;
      comm_send 0 (Obj {[ "status" := PStr "complete" ]}) (Rank source_rank) 3.
Proof.
  unfold Server.master_transfer, getitem.
  rewrite client_request_source_rank, client_request_filename,
    client_request_filesize, client_request_num_chunks.
  reflexivity.
Qed.

Lemma ft_available_elem size source i :
  i ∈ FileTransfer.available_workers size source
  ↔ 1 ≤ i < size ∧ i ≠ source.
Proof.
  unfold FileTransfer.available_workers.
  rewrite list_elem_of_filter, elem_of_seq. lia.
Qed.

Lemma ascending_seq a n : ascending (seq a n).
Proof.
  revert a. induction n as [|n IH]; intros a; simpl; constructor; [apply IH|].
  apply Forall_forall. intros x Hx%elem_of_seq. lia.
Qed.

Lemma ascending_filter (P : nat → Prop) `{!∀ x, Decision (P x)} l :
  ascending l → ascending (filter P l).
Proof.
  induction 1 as [|x l Hl IH Hx]; [constructor|].
  rewrite filter_cons. case_decide; [|done].
  constructor; [done|]. apply Forall_forall. intros y Hy%list_elem_of_filter.
  rewrite Forall_forall in Hx. apply Hx, Hy.
Qed.

Lemma ascending_take n l : ascending l → ascending (take n l).
Proof.
  intros H. revert n. induction H as [|x l Hl IH Hx]; intros [|n]; simpl;
    try constructor; [apply IH|].
  apply Forall_forall. intros y Hy. rewrite Forall_forall in Hx.
  apply Hx. by eapply subseteq_take.
Qed.

Lemma filter_all {A} (P : A → Prop) `{!∀ x, Decision (P x)} (l : list A) :
  Forall P l → filter P l = l.
Proof.
  induction 1 as [|x l Hx Hl IH]; [done|].
  by rewrite filter_cons_True, IH.
Qed.

Lemma filter_none {A} (P : A → Prop) `{!∀ x, Decision (P x)} (l : list A) :
  Forall (λ x, ¬ P x) l → filter P l = [].
Proof.
  induction 1 as [|x l Hx Hl IH]; [done|].
  by rewrite filter_cons_False, IH.
Qed.

Lemma remove_first_filter x l :
  NoDup l → Server.remove_first x l = filter (λ i, i ≠ x) l.
Proof.
  induction 1 as [|y l Hy Hl IH]; simpl; [done|].
  rewrite filter_cons. case_bool_decide as Hxy.
  - subst y. rewrite decide_False by (intros H; by apply H).
    symmetry. apply filter_all, Forall_forall. by intros z Hz ->.
  - rewrite decide_True by done. by rewrite IH.
Qed.

Lemma srv_available_workers_eq size source_rank :
  Server.available_workers size source_rank
  = FileTransfer.available_workers size source_rank.
Proof.
  unfold Server.available_workers, FileTransfer.available_workers.
  case_bool_decide as Hin.
  - apply remove_first_filter, NoDup_seq.
  - symmetry. apply filter_all, Forall_forall. by intros z Hz ->.
Qed.

Lemma ft_available_ascending size source :
  ascending (FileTransfer.available_workers size source).
Proof. apply ascending_filter, ascending_seq. Qed.

Lemma selected_not_source size source n :
  source ∉ take n (FileTransfer.available_workers size source).
Proof.
  intros H. apply (subseteq_take n) in H. apply ft_available_elem in H. lia.
Qed.

Lemma sent_since_app w w' l : sent w' = sent w ++ l → sent_since w w' = l.
Proof. intros H. unfold sent_since. by rewrite H, drop_app_length. Qed.

Lemma with_tag_all tag l : Forall (λ p, p_tag p = tag) l → with_tag tag l = l.
Proof. apply filter_all. Qed.

Lemma with_tag_none tag l : Forall (λ p, p_tag p ≠ tag) l → with_tag tag l = [].
Proof. apply filter_none. Qed.

Lemma with_tag_app tag l1 l2 :
  with_tag tag (l1 ++ l2) = with_tag tag l1 ++ with_tag tag l2.
Proof. apply filter_app. Qed.

(** A computation that has sent [pre] and then only [P]-packets keeps doing
    so when it goes on with code that sends only [P]-packets. *)
Lemma sent_bind_tail {A B} P pre (m : M A) (k : A → M B) w :
  (∃ l, sent (m w).2 = sent w ++ pre ++ l ∧ Forall P l) →
  (∀ a, sends_only P (k a)) →
  ∃ l, sent ((m ≫= k) w).2 = sent w ++ pre ++ l ∧ Forall P l.
Proof.
  intros (l & Hl & HP) Hk. rewrite bind_run.
  destruct (m w) as [[a| |] w1]; simpl in *; [|by exists l..].
  destruct (Hk a w1) as (l' & Hl' & HP'). exists (l ++ l').
  rewrite Hl', Hl, <- !app_assoc. split; [done|]. by apply Forall_app.
Qed.

Lemma sent_after_exact {A B} P pre (m : M A) (k : A → M B) a w :
  m w = (Done a, after_sending pre w) →
  sends_only P (k a) →
  ∃ l, sent ((m ≫= k) w).2 = sent w ++ pre ++ l ∧ Forall P l.
Proof.
  intros Hm Hk. erewrite bind_done by done.
  destruct (Hk (after_sending pre w)) as (l & Hl & HP). exists l.
  rewrite Hl. simpl. by rewrite <- app_assoc.
Qed.

Lemma ft_handle_direct_sent size timestamp filename filesize num_chunks source w :
  FileTransfer.available_workers size source = [] ∨ num_chunks < 2 →
  ∃ l, sent (FileTransfer.handle_file_transfer size timestamp
               (FileTransfer.transfer_request filename filesize num_chunks)
               source w).2
       = sent w ++ [Packet 0 (Rank source) 20 (Obj FileTransfer.ready_direct)] ++ l
       ∧ Forall (λ p, p_tag p = 21) l.
Proof.
  intros Hc. rewrite ft_handle_run. cbv zeta.
  replace (bool_decide (FileTransfer.available_workers size source = [])
           || bool_decide (num_chunks < 2)) with true
    by (symmetry; apply orb_true_iff; rewrite !bool_decide_eq_true; done).
  apply sent_bind_tail; [|intros _; sends].
  eapply sent_after_exact; [apply comm_send_run|].
  apply ft_receive_file_direct_sends.
Qed.

Lemma take_ne_nil {A} (l : list A) n : l ≠ [] → 1 ≤ n → take n l ≠ [].
Proof. destruct l, n; simpl; try done; lia. Qed.

Lemma ft_handle_parallel_sent size timestamp filename filesize num_chunks source w :
  FileTransfer.available_workers size source ≠ [] → 2 ≤ num_chunks →
  let workers := FileTransfer.available_workers size source in
  let selected := take (length workers `min` num_chunks) workers in
  let n := length selected in
  let assignments :=
    paired (save_path FileTransfer.upload_dir timestamp filename) selected
      (ranges (num_chunks / n) (num_chunks mod n) 0 n 0) in
  ∃ l, sent (FileTransfer.handle_file_transfer size timestamp
               (FileTransfer.transfer_request filename filesize num_chunks)
               source w).2
       = sent w
         ++ (Packet 0 (Rank source) 20
               (Obj (FileTransfer.ready_parallel selected num_chunks))
             :: (task_packet source <$> assignments))
         ++ l
       ∧ Forall (λ p, p_tag p = 31 ∨ p_tag p = 21) l.
Proof.
  intros Hne Hc workers selected n assignments. rewrite ft_handle_run. cbv zeta.
  fold workers.
  replace (bool_decide (workers = []) || bool_decide (num_chunks < 2))
    with false
    by (symmetry; apply orb_false_iff;
        rewrite !bool_decide_eq_false; split; [done|lia]).
  fold selected.
  assert (Hsel : selected ≠ []).
  { apply take_ne_nil; [done|]. unfold workers.
    destruct (FileTransfer.available_workers size source); [done|].
    rewrite length_cons. lia. }
  apply sent_bind_tail; [|intros _; apply sends_only_comm_send; by right].
  unfold FileTransfer.coordinate_parallel_transfer.
  set (K := λ a, FileTransfer.collect a ;; FileTransfer.reassemble _ a).
  erewrite bind_done by apply comm_send_run.
  erewrite bind_done by (by apply ft_assign_chunks_run).
  cbv zeta. fold n. fold assignments.
  destruct (ft_collect_reassemble_sends
              (save_path FileTransfer.upload_dir timestamp filename) assignments
              (after_sending (task_packet source <$> assignments)
                 (after_sending
                    [Packet 0 (Rank source) 20
                       (Obj (FileTransfer.ready_parallel selected num_chunks))] w)))
    as (l & Hl & HP).
  exists l. subst K. cbv beta. rewrite Hl. simpl. rewrite <- !app_assoc.
  split; [done|]. eapply Forall_impl; [done|]. by left.
Qed.

Lemma srv_master_direct_sent size timestamp filename filesize num_chunks source w :
  Server.available_workers size source = [] →
  sent (Server.master_transfer size timestamp
          (Client.transfer_request source filename filesize num_chunks) w).2
  = sent w ++ [Packet 0 (Rank source) 2
                 (Obj (Server.ready (save_path Server.upload_dir timestamp filename)))].
Proof.
  intros Hc. rewrite srv_master_run. cbv zeta. rewrite Hc.
  erewrite bind_done by apply comm_send_run.
  rewrite bool_decide_eq_true_2 by done.
  match goal with |- sent (?m ?w1).2 = _ =>
    destruct (srv_receive_all_chunks_sends (λ _, False) source
                (save_path Server.upload_dir timestamp filename) num_chunks w1)
      as (l & Hl & HP)
  end.
  rewrite Hl. destruct HP as [|p l []]. by rewrite app_nil_r.
Qed.

Lemma srv_collect_complete_sends source_rank (chunk_assignments : list Server.assignment) :
  sends_only (λ p, p_tag p = 11 ∨ p_tag p = 3)
    (for_each chunk_assignments (λ a, Server.recv_done a.1.1 ;; mret tt) ;;
     comm_send 0 (Obj {[ "status" := PStr "complete" ]}) (Rank source_rank) 3).
Proof.
  apply sends_only_bind; [|intros _; apply sends_only_comm_send; by right].
  apply (sends_only_weaken _ (λ p, p_tag p = 11)); [by left|].
  unfold Server.recv_done. sends.
Qed.

Lemma srv_master_parallel_sent size timestamp filename filesize num_chunks source w :
  Server.available_workers size source ≠ [] → 1 ≤ num_chunks →
  let available := Server.available_workers size source in
  let workers := take (length available `min` num_chunks) available in
  let n := length workers in
  let filepath := save_path Server.upload_dir timestamp filename in
  let chunk_assignments :=
    paired3 workers (ranges (num_chunks / n) (num_chunks mod n) 0 n 0) in
  ∃ l, sent (Server.master_transfer size timestamp
               (Client.transfer_request source filename filesize num_chunks) w).2
       = sent w
         ++ (Packet 0 (Rank source) 2 (Obj (Server.ready filepath))
             :: (work_packet source filepath <$> chunk_assignments))
         ++ l
       ∧ Forall (λ p, p_tag p = 11 ∨ p_tag p = 3) l.
Proof.
  intros Hne Hc available workers n filepath chunk_assignments.
  rewrite srv_master_run. cbv zeta. fold available filepath.
  erewrite bind_done by apply comm_send_run.
  rewrite bool_decide_eq_false_2 by done. fold workers.
  assert (Hn : length available `min` num_chunks = n).
  { unfold n, workers. rewrite length_take. lia. }
  rewrite Hn.
  assert (Hsel : workers ≠ []).
  { apply take_ne_nil; [done|]. unfold available.
    destruct (Server.available_workers size source); [done|].
    rewrite length_cons. lia. }
  erewrite bind_done by (by apply srv_assign_chunks_run).
  cbv beta zeta. fold n. fold chunk_assignments.
  match goal with |- ∃ l, sent (_ ?w1).2 = _ ∧ _ =>
    destruct (srv_collect_complete_sends source chunk_assignments w1)
      as (l & Hl & HP)
  end.
  exists l. split; [|done]. etrans; [exact Hl|]. simpl.
  by rewrite <- !app_assoc.
Qed.

Lemma task_packets_tag source assignments :
  Forall (λ p, p_tag p = 30) (task_packet source <$> assignments).
Proof. apply Forall_fmap, Forall_forall. by intros. Qed.

Lemma work_packets_tag source filepath assignments :
  Forall (λ p, p_tag p = 10) (work_packet source filepath <$> assignments).
Proof. apply Forall_fmap, Forall_forall. by intros. Qed.

Lemma task_packets_dst source filepath workers rs :
  length rs = length workers →
  p_dst <$> (task_packet source <$> paired filepath workers rs)
  = Rank <$> workers.
Proof.
  intros H. rewrite <- (paired_workers filepath workers rs H) at 2.
  rewrite <- !list_fmap_compose. done.
Qed.

Lemma work_packets_dst source filepath workers rs :
  length rs = length workers →
  p_dst <$> (work_packet source filepath <$> paired3 workers rs)
  = Rank <$> workers.
Proof.
  intros H. rewrite <- (paired3_workers workers rs H) at 2.
  rewrite <- !list_fmap_compose. done.
Qed.

Lemma with_tag_other tag tag' l :
  tag ≠ tag' → Forall (λ p, p_tag p = tag') l → with_tag tag l = [].
Proof.
  intros Hne H. apply with_tag_none. eapply Forall_impl; [done|].
  simpl. congruence.
Qed.

Lemma with_tag_other2 tag t1 t2 l :
  tag ≠ t1 → tag ≠ t2 → Forall (λ p, p_tag p = t1 ∨ p_tag p = t2) l →
  with_tag tag l = [].
Proof.
  intros H1 H2 H. apply with_tag_none. eapply Forall_impl; [done|].
  simpl. intros p [|]; congruence.
Qed.

Lemma selected_ne_nil (workers : list nat) num_chunks :
  workers ≠ [] → 1 ≤ num_chunks →
  take (length workers `min` num_chunks) workers ≠ [].
Proof.
  intros Hne Hc. apply take_ne_nil; [done|].
  destruct workers; [done|]. rewrite length_cons. lia.
Qed.

(** The choice of strategy in [file_transfer.py].  The available workers are
    the ranks [1 .. size-1] other than the source, in ascending order, and the
    selected workers are the first [min(len(workers), num_chunks)] of them, so
    the source is never selected.  When no worker is available or
    [num_chunks < 2] the master answers Direct and dispatches no assignment;
    otherwise at least one worker is selected, the master answers Parallel
    with the selected workers and dispatches one assignment to each of them,
    in order. *)
Theorem ft_strategy_choice size timestamp filename filesize num_chunks source w :
  let workers := FileTransfer.available_workers size source in
  let selected := take (length workers `min` num_chunks) workers in
  let w1 :=
    (FileTransfer.handle_file_transfer size timestamp
       (FileTransfer.transfer_request filename filesize num_chunks) source w).2 in
  (∀ i, i ∈ workers ↔ 1 ≤ i < size ∧ i ≠ source)
  ∧ ascending workers
  ∧ (source ∉ selected)
  ∧ (workers = [] ∨ num_chunks < 2 →
       with_tag 20 (sent_since w w1)
       = [Packet 0 (Rank source) 20 (Obj FileTransfer.ready_direct)]
       ∧ with_tag 30 (sent_since w w1) = [])
  ∧ (workers ≠ [] ∧ 2 ≤ num_chunks →
       selected ≠ []
       ∧ length selected = length workers `min` num_chunks
       ∧ with_tag 20 (sent_since w w1)
         = [Packet 0 (Rank source) 20
              (Obj (FileTransfer.ready_parallel selected num_chunks))]
       ∧ p_dst <$> with_tag 30 (sent_since w w1) = Rank <$> selected).
Proof.
  intros workers selected w1.
  split; [apply ft_available_elem|].
  split; [apply ft_available_ascending|].
  split; [apply selected_not_source|].
  split.
  - intros Hc.
    destruct (ft_handle_direct_sent size timestamp filename filesize
                num_chunks source w Hc) as (l & Hl & HP).
    unfold w1. rewrite (sent_since_app _ _ _ Hl), !with_tag_app.
    rewrite (with_tag_all 20 [_]) by (by repeat constructor).
    rewrite (with_tag_other 20 21 l), (with_tag_other 30 21 l) by done.
    rewrite (with_tag_other 30 20 [_]) by (by repeat constructor). done.
  - intros [Hne Hc].
    split; [apply selected_ne_nil; [done|lia]|].
    split; [unfold selected; rewrite length_take; lia|].
    destruct (ft_handle_parallel_sent size timestamp filename filesize
                num_chunks source w Hne Hc) as (l & Hl & HP).
    cbv zeta in Hl. fold workers selected in Hl.
    unfold w1. rewrite (sent_since_app _ _ _ Hl), !with_tag_app.
    rewrite (with_tag_other2 20 31 21 l), (with_tag_other2 30 31 21 l) by done.
    rewrite !app_nil_r.
    change (?p :: ?l) with ([p] ++ l). rewrite !with_tag_app.
    rewrite (with_tag_other 30 20 [_]) by (by repeat constructor).
    rewrite (with_tag_all 20 [_]) by (by repeat constructor).
    rewrite (with_tag_other 20 30) by first [done|apply task_packets_tag].
    rewrite with_tag_all by apply task_packets_tag.
    split; [done|]. simpl. apply task_packets_dst, ranges_length.
Qed.

Lemma ft_strategy_choice_witness :
  let workers := FileTransfer.available_workers 4 1 in
  let w1 :=
    (FileTransfer.handle_file_transfer 4 "T"
       (FileTransfer.transfer_request "a" 5 3) 1 world0).2 in
  (workers ≠ [] ∧ 2 ≤ 3)
  ∧ with_tag 20 (sent_since world0 w1)
    = [Packet 0 (Rank 1) 20
         (Obj (FileTransfer.ready_parallel
                 (take (length workers `min` 3) workers) 3))]
  ∧ p_dst <$> with_tag 30 (sent_since world0 w1)
    = Rank <$> take (length workers `min` 3) workers.
Proof.
  intros workers w1.
  assert (Hne : workers ≠ []) by (by vm_compute).
  destruct (ft_strategy_choice 4 "T" "a" 5 3 1 world0)
    as (_ & _ & _ & _ & Hpar).
  split; [split; [exact Hne|lia]|].
  apply Hpar. split; [exact Hne|lia].
Defined.

(** The choice of strategy in [server.py].  The available workers are the
    same ranks as in [file_transfer.py].  When none is available the master
    sends the readiness answer and nothing else: no assignment is dispatched.
    When one is available and [num_chunks ≥ 1], at least one worker is
    selected and the master dispatches one assignment to each of the first
    [min(len(workers), num_chunks)] available workers, in order; [num_chunks]
    is not compared with 2.  When one is available and [num_chunks = 0] the
    master answers ready and raises [ZeroDivisionError]. *)
Theorem srv_strategy_choice size timestamp filename filesize num_chunks source w :
  let workers := Server.available_workers size source in
  let selected := take (length workers `min` num_chunks) workers in
  let filepath := save_path Server.upload_dir timestamp filename in
  let r :=
    Server.master_transfer size timestamp
      (Client.transfer_request source filename filesize num_chunks) w in
  (∀ i, i ∈ workers ↔ 1 ≤ i < size ∧ i ≠ source)
  ∧ ascending workers
  ∧ (source ∉ selected)
  ∧ (workers = [] →
       sent_since w r.2 = [Packet 0 (Rank source) 2 (Obj (Server.ready filepath))])
  ∧ (workers ≠ [] ∧ 1 ≤ num_chunks →
       selected ≠ []
       ∧ length selected = length workers `min` num_chunks
       ∧ with_tag 2 (sent_since w r.2)
         = [Packet 0 (Rank source) 2 (Obj (Server.ready filepath))]
       ∧ p_dst <$> with_tag 10 (sent_since w r.2) = Rank <$> selected)
  ∧ (workers ≠ [] ∧ num_chunks = 0 →
       r = (Raise ZeroDivisionError,
            after_sending
              [Packet 0 (Rank source) 2 (Obj (Server.ready filepath))] w)).
Proof.
  intros workers selected filepath r.
  unfold selected, workers. rewrite srv_available_workers_eq.
  split; [apply ft_available_elem|].
  split; [apply ft_available_ascending|].
  split; [apply selected_not_source|].
  rewrite <- srv_available_workers_eq. fold workers.
  split; [|split].
  - intros Hc. unfold r.
    by rewrite (sent_since_app _ _ _
                  (srv_master_direct_sent size timestamp filename filesize
                     num_chunks source w Hc)).
  - intros [Hne Hc].
    split; [by apply selected_ne_nil|].
    split; [rewrite length_take; lia|].
    destruct (srv_master_parallel_sent size timestamp filename filesize
                num_chunks source w Hne Hc) as (l & Hl & HP).
    cbv zeta in Hl. fold workers filepath in Hl.
    unfold r. rewrite (sent_since_app _ _ _ Hl), !with_tag_app.
    rewrite (with_tag_other2 10 11 3 l), (with_tag_other2 2 11 3 l) by done.
    rewrite !app_nil_r.
    change (?p :: ?l) with ([p] ++ l). rewrite !with_tag_app.
    rewrite (with_tag_other 10 2 [_]) by (by repeat constructor).
    rewrite (with_tag_all 2 [_]) by (by repeat constructor).
    rewrite (with_tag_other 2 10) by first [done|apply work_packets_tag].
    rewrite with_tag_all by apply work_packets_tag.
    split; [done|]. simpl. apply work_packets_dst, ranges_length.
  - intros [Hne ->]. unfold r. rewrite srv_master_run. cbv zeta.
    erewrite bind_done by apply comm_send_run.
    rewrite bool_decide_eq_false_2 by done.
    rewrite Nat.min_0_r. reflexivity.
Qed.

Lemma srv_strategy_choice_witness :
  let workers := Server.available_workers 3 1 in
  let r :=
    Server.master_transfer 3 "T" (Client.transfer_request 1 "a" 1 1) world0 in
  (workers ≠ [] ∧ 1 ≤ 1)
  ∧ p_dst <$> with_tag 10 (sent_since world0 r.2)
    = Rank <$> take (length workers `min` 1) workers.
Proof.
  intros workers r.
  assert (Hne : workers ≠ []) by (by vm_compute).
  destruct (srv_strategy_choice 3 "T" "a" 1 1 1 world0)
    as (_ & _ & _ & _ & Hpar & _).
  split; [split; [exact Hne|lia]|].
  apply Hpar. split; [exact Hne|lia].
Defined.

(** C3 fails on [server.py].  With three processes, source 1 and a file of
    one chunk, worker 2 is available and [num_chunks < 2], so the policy asks
    for Direct mode.  [file_transfer.py] answers Direct, receives the chunk
    itself and dispatches nothing.  [server.py], whose direct branch is
    guarded by [if not available_workers] alone, takes the parallel branch:
    it dispatches the chunk range [0, 1) to worker 2, which receives the
    chunk. *)
Lemma server_parallel_for_one_chunk :
  let r1 :=
    FileTransfer.handle_file_transfer 3 "T"
      (FileTransfer.transfer_request "a" 1 1) 1
      (World ∅ [Packet 1 (Rank 0) 100 (Raw [x2a])] []) in
  let filepath := save_path Server.upload_dir "T" "a" in
  let r2 :=
    Server.master_transfer 3 "T" (Client.transfer_request 1 "a" 1 1)
      (World ∅ [Packet 1 (Rank 2) 100 (Obj {[ "data" := PBytes [x2a] ]})] []) in
  FileTransfer.available_workers 3 1 = [2]
  ∧ Server.available_workers 3 1 = [2]
  ∧ r1.1 = Done tt
  ∧ sent r1.2
    = [Packet 0 (Rank 1) 20 (Obj FileTransfer.ready_direct);
       Packet 0 (Rank 1) 21 (Obj {[ "status" := PStr "complete" ]})]
  ∧ r2.1 = Done tt
  ∧ sent r2.2
    = [Packet 0 (Rank 1) 2 (Obj (Server.ready filepath));
       Packet 0 (Rank 2) 10 (Obj (Server.work_data 1 0 1 filepath));
       Packet 2 (Rank 0) 11 (Obj {[ "status" := PStr "done" ]});
       Packet 0 (Rank 1) 3 (Obj {[ "status" := PStr "complete" ]})].
Proof. by vm_compute. Qed.

(** ** Empty files *)

(** In [file_transfer.py] a request with [num_chunks = 0] is served in Direct
    mode whatever the number of workers: the master answers, creates the
    empty final file, and acknowledges. *)
Lemma ft_empty_file_direct size timestamp filename filesize source w :
  FileTransfer.handle_file_transfer size timestamp
    (FileTransfer.transfer_request filename filesize 0) source w
  = (Done tt,
     World (<[save_path FileTransfer.upload_dir timestamp filename := []]> (files w))
       (net w ++ [Packet 0 (Rank source) 20 (Obj FileTransfer.ready_direct);
                  Packet 0 (Rank source) 21 (Obj {[ "status" := PStr "complete" ]})])
       (sent w ++ [Packet 0 (Rank source) 20 (Obj FileTransfer.ready_direct);
                   Packet 0 (Rank source) 21 (Obj {[ "status" := PStr "complete" ]})])).
Proof.
  rewrite ft_handle_run. cbv zeta.
  rewrite (bool_decide_eq_true_2 (0 < 2)) by lia. rewrite orb_true_r.
  unfold FileTransfer.receive_file_direct, comm_send, open_wb. simpl.
  cbv beta iota delta [mbind M_bind mret M_ret]. simpl.
  by rewrite <- !app_assoc.
Qed.

(** In [server.py] the same request raises [ZeroDivisionError] whenever a
    worker is available: [num_workers] is [min(len(available_workers), 0)]. *)
Lemma srv_empty_file_raises size timestamp source filename filesize w :
  Server.available_workers size source ≠ [] →
  (Server.master_transfer size timestamp
     (Client.transfer_request source filename filesize 0) w).1
  = Raise ZeroDivisionError.
Proof.
  intros Hne. rewrite srv_master_run. cbv zeta.
  erewrite bind_done by apply comm_send_run.
  rewrite bool_decide_eq_false_2 by done.
  rewrite Nat.min_0_r. reflexivity.
Qed.

(** C7 fails on [server.py]: with three processes, source 1 and an empty
    file the master has a worker available, takes [num_workers = min(1, 0)
    = 0] and raises [ZeroDivisionError] at [num_chunks // num_workers]; it
    has answered ready, and no final file exists. *)
Lemma empty_file_crashes_server :
  let r := Server.master_transfer 3 "T" (Client.transfer_request 1 "a" 0 0) world0 in
  r.1 = Raise ZeroDivisionError
  ∧ files r.2 = ∅
  ∧ sent r.2 = [Packet 0 (Rank 1) 2
                  (Obj (Server.ready (save_path Server.upload_dir "T" "a")))].
Proof. by vm_compute. Qed.

(** ** The readiness response *)

Lemma srv_dispatch_sends source_rank filepath cpw rem i workers start acc :
  sends_only (λ p, p_tag p = 10)
    (Server.dispatch source_rank filepath cpw rem i workers start acc).
Proof.
  intros w. rewrite srv_dispatch_run. cbv zeta. eexists. split; [done|].
  apply work_packets_tag.
Qed.

Lemma srv_master_sent_ready size timestamp filename filesize num_chunks source w :
  ∃ l, sent (Server.master_transfer size timestamp
               (Client.transfer_request source filename filesize num_chunks) w).2
       = sent w
         ++ [Packet 0 (Rank source) 2
               (Obj (Server.ready (save_path Server.upload_dir timestamp filename)))]
         ++ l
       ∧ Forall (λ p, p_tag p ≠ 2) l.
Proof.
  rewrite srv_master_run. cbv zeta.
  eapply sent_after_exact; [apply comm_send_run|].
  case_bool_decide.
  - apply srv_receive_all_chunks_sends.
  - apply (sends_only_weaken _ (λ p, p_tag p = 10 ∨ p_tag p = 11 ∨ p_tag p = 3)).
    { intros p [->|[->| ->]]; done. }
    apply sends_only_bind.
    + unfold Server.assign_chunks. sends.
      apply (sends_only_weaken _ (λ p, p_tag p = 10)); [by left|].
      apply srv_dispatch_sends.
    + intros a.
      apply (sends_only_weaken _ (λ p, p_tag p = 11 ∨ p_tag p = 3));
        [tauto|apply srv_collect_complete_sends].
Qed.

Lemma selected_bounds (workers : list nat) num_chunks :
  workers ≠ [] → 1 ≤ num_chunks →
  let n := length (take (length workers `min` num_chunks) workers) in
  1 ≤ n ∧ n ≤ num_chunks.
Proof.
  intros Hne Hc. cbv zeta. rewrite length_take.
  destruct workers; [done|]. rewrite length_cons. lia.
Qed.

(** C5 (amended).  In [file_transfer.py] the response to the sender is
    [{'status': 'ready', 'method': 'direct'}] in Direct mode and, in Parallel
    mode, [{'status': 'ready', 'method': 'parallel', 'workers': selected,
    'num_chunks': num_chunks}]: it lists the selected workers in order but no
    ranges.  The ranges dispatched to the workers are the balanced partition
    computed from exactly these two fields, so the response determines the
    owner of every chunk.  In [server.py] the response is [{'status':
    'ready', 'filepath': path}] in every mode. *)
Theorem readiness_response size timestamp filename filesize num_chunks source w :
  let workers := FileTransfer.available_workers size source in
  let selected := take (length workers `min` num_chunks) workers in
  let n := length selected in
  let filepath := save_path FileTransfer.upload_dir timestamp filename in
  let rs := ranges (num_chunks / n) (num_chunks mod n) 0 n 0 in
  let w1 :=
    (FileTransfer.handle_file_transfer size timestamp
       (FileTransfer.transfer_request filename filesize num_chunks) source w).2 in
  let w2 :=
    (Server.master_transfer size timestamp
       (Client.transfer_request source filename filesize num_chunks) w).2 in
  (workers = [] ∨ num_chunks < 2 →
     with_tag 20 (sent_since w w1)
     = [Packet 0 (Rank source) 20
          (Obj {[ "status" := PStr "ready"; "method" := PStr "direct" ]})])
  ∧ (workers ≠ [] ∧ 2 ≤ num_chunks →
     with_tag 20 (sent_since w w1)
     = [Packet 0 (Rank source) 20
          (Obj {[ "status" := PStr "ready";
                  "method" := PStr "parallel";
                  "workers" := PList (PInt <$> selected);
                  "num_chunks" := PInt num_chunks ]})]
     ∧ with_tag 30 (sent_since w w1)
       = task_packet source <$> paired filepath selected rs
     ∧ balanced_partition num_chunks n rs)
  ∧ with_tag 2 (sent_since w w2)
    = [Packet 0 (Rank source) 2
         (Obj {[ "status" := PStr "ready";
                 "filepath" := PStr (save_path Server.upload_dir timestamp filename) ]})].
Proof.
  intros workers selected n filepath rs w1 w2. split; [|split].
  - intros Hc.
    destruct (ft_handle_direct_sent size timestamp filename filesize
                num_chunks source w Hc) as (l & Hl & HP).
    unfold w1. rewrite (sent_since_app _ _ _ Hl), !with_tag_app.
    rewrite (with_tag_all 20 [_]) by (by repeat constructor).
    by rewrite (with_tag_other 20 21 l).
  - intros [Hne Hc].
    destruct (ft_handle_parallel_sent size timestamp filename filesize
                num_chunks source w Hne Hc) as (l & Hl & HP).
    cbv zeta in Hl. fold workers selected n filepath rs in Hl.
    unfold w1. rewrite (sent_since_app _ _ _ Hl), !with_tag_app.
    rewrite (with_tag_other2 20 31 21 l), (with_tag_other2 30 31 21 l) by done.
    rewrite !app_nil_r.
    change (?p :: ?l) with ([p] ++ l). rewrite !with_tag_app.
    rewrite (with_tag_all 20 [_]) by (by repeat constructor).
    rewrite (with_tag_other 30 20 [_]) by (by repeat constructor).
    rewrite (with_tag_other 20 30) by first [done|apply task_packets_tag].
    rewrite with_tag_all by apply task_packets_tag.
    split; [done|]. split; [done|].
    destruct (selected_bounds workers num_chunks Hne) as [H1 H2]; [lia|].
    by apply ranges_balanced.
  - destruct (srv_master_sent_ready size timestamp filename filesize
                num_chunks source w) as (l & Hl & HP).
    unfold w2. rewrite (sent_since_app _ _ _ Hl), !with_tag_app.
    rewrite (with_tag_all 2 [_]) by (by repeat constructor).
    by rewrite (with_tag_none 2 l).
Qed.

Lemma readiness_response_witness :
  let w1 :=
    (FileTransfer.handle_file_transfer 4 "T"
       (FileTransfer.transfer_request "a" 5 3) 1 world0).2 in
  (FileTransfer.available_workers 4 1 ≠ [] ∧ 2 ≤ 3)
  ∧ with_tag 20 (sent_since world0 w1)
    = [Packet 0 (Rank 1) 20
         (Obj {[ "status" := PStr "ready";
                 "method" := PStr "parallel";
                 "workers" :=
                   PList (PInt <$> take (length (FileTransfer.available_workers 4 1) `min` 3)
                                     (FileTransfer.available_workers 4 1));
                 "num_chunks" := PInt 3 ]})].
Proof.
  intros w1.
  assert (Hne : FileTransfer.available_workers 4 1 ≠ []) by (by vm_compute).
  destruct (readiness_response 4 "T" "a" 5 3 1 world0) as (_ & Hpar & _).
  split; [split; [exact Hne|lia]|].
  apply Hpar. split; [exact Hne|lia].
Defined.

(** C5 as stated fails.  With four processes, source 1 and three chunks the
    master of [file_transfer.py] dispatches the ranges (2, 0, 2) and
    (3, 2, 3), and its response announces neither Direct mode nor these
    ranges; the response of [server.py] for the same transfer does not
    either. *)
Lemma response_lacks_ranges :
  let path := save_path FileTransfer.upload_dir "T" "a" in
  let assignments := [(2, 0, 2, part_path path 2); (3, 2, 3, part_path path 3)] in
  let w1 :=
    (FileTransfer.handle_file_transfer 4 "T"
       (FileTransfer.transfer_request "a" 5 3) 1 world0).2 in
  let w2 :=
    (Server.master_transfer 4 "T" (Client.transfer_request 1 "a" 5 3) world0).2 in
  ¬ (∀ d, Packet 0 (Rank 1) 20 (Obj d) ∈ sent w1 →
          with_tag 30 (sent w1) = task_packet 1 <$> assignments →
          direct_readiness d ∨ carries_ranges d assignments)
  ∧ ¬ (∀ d, Packet 0 (Rank 1) 2 (Obj d) ∈ sent w2 →
            direct_readiness d ∨ carries_ranges d assignments).
Proof.
  intros path assignments w1 w2. split.
  - intros H. destruct (H (FileTransfer.ready_parallel [2; 3] 3)) as [Hd|[k Hk]].
    + vm_compute. left.
    + by vm_compute.
    + vm_compute in Hd. discriminate Hd.
    + apply elem_of_map_to_list in Hk. vm_compute in Hk.
      repeat (apply elem_of_cons in Hk as [Hk|Hk]; [discriminate Hk|]).
      by apply elem_of_nil in Hk.
  - intros H. destruct (H (Server.ready path)) as [Hd|[k Hk]].
    + vm_compute. left.
    + vm_compute in Hd. discriminate Hd.
    + apply elem_of_map_to_list in Hk. vm_compute in Hk.
      repeat (apply elem_of_cons in Hk as [Hk|Hk]; [discriminate Hk|]).
      by apply elem_of_nil in Hk.
Qed.

(** ** Where the senders address the chunks *)

Lemma sends_only_sent_since {A} P (m : M A) w :
  sends_only P m → Forall P (sent_since w (m w).2).
Proof.
  intros Hm. destruct (Hm w) as (l & Hl & HP).
  by rewrite (sent_since_app _ _ _ Hl).
Qed.

(** C6 fails on both senders.  Whatever the response of the coordinator says
    and whatever the chunk index, [send_file] addresses the chunk to
    [MPI.ANY_SOURCE]: no packet it sends names a rank as its destination, so
    none is addressed to the worker that owns the chunk. *)
Theorem chunks_addressed_to_wildcard rank response chunks w :
  let w1 := (FileTransfer.send_file_chunks rank response chunks w).2 in
  let w2 := (Client.send_file_chunks rank response chunks w).2 in
  Forall (λ p, p_dst p = ANY_SOURCE ∧ ∀ worker, p_dst p ≠ Rank worker)
    (sent_since w w1 ++ sent_since w w2).
Proof.
  intros w1 w2. apply Forall_app. split.
  - apply sends_only_sent_since. unfold FileTransfer.send_file_chunks. sends.
  - apply sends_only_sent_since. unfold Client.send_file_chunks. sends.
Qed.

(** A Parallel response naming workers 2 and 3 for three chunks.  Chunk 0
    belongs to worker 2; the sender addresses it to the wildcard on the
    channel 100, the send raises, and no chunk is put in flight. *)
Example parallel_chunks_unrouted :
  let response := FileTransfer.ready_parallel [2; 3] 3 in
  let r := FileTransfer.send_file_chunks 1 response [[x01]; [x02]; [x03]] world0 in
  r.1 = Raise MPIException
  ∧ (λ p, (p_dst p, p_tag p)) <$> sent r.2 = [(ANY_SOURCE, 100)]
  ∧ net r.2 = [].
Proof. by vm_compute. Qed.

(** ** Shutdown of a worker *)

Lemma take_first_split f pre p rest :
  Forall (λ q, f q = false) pre → f p = true →
  take_first f (pre ++ p :: rest) = Some (p, pre ++ rest).
Proof.
  intros Hpre Hp. induction Hpre as [|q pre Hq Hpre IH]; simpl.
  - by rewrite Hp.
  - by rewrite Hq, IH.
Qed.

Lemma comm_recv_run me source tag w pre p rest :
  net w = pre ++ p :: rest →
  Forall (λ q, matches me source tag q = false) pre →
  matches me source tag p = true →
  comm_recv me source tag w
  = (Done (p_body p), World (files w) (pre ++ rest) (sent w)).
Proof.
  intros Hnet Hpre Hp. unfold comm_recv.
  by rewrite Hnet, (take_first_split _ _ _ _ Hpre Hp).
Qed.

Lemma ft_worker_iteration_shutdown rank w pre p rest d :
  net w = pre ++ p :: rest →
  p_body p = Obj d →
  Forall (λ q, matches rank 0 30 q = false) pre →
  matches rank 0 30 p = true →
  d !! "task" = Some (PStr "shutdown") →
  FileTransfer.worker_iteration rank w
  = (Done Stopped, World (files w) (pre ++ rest) (sent w)).
Proof.
  intros Hnet Hbody Hpre Hp Hd. unfold FileTransfer.worker_iteration.
  erewrite bind_done by (by eapply comm_recv_run).
  rewrite Hbody. erewrite bind_done by reflexivity.
  unfold get_is. rewrite Hd. by rewrite bool_decide_eq_true_2.
Qed.

Lemma srv_worker_iteration_shutdown rank w pre p rest d :
  net w = pre ++ p :: rest →
  p_body p = Obj d →
  Forall (λ q, matches rank 0 10 q = false) pre →
  matches rank 0 10 p = true →
  d !! "type" = Some (PStr "shutdown") →
  Server.worker_iteration rank w
  = (Done Stopped, World (files w) (pre ++ rest) (sent w)).
Proof.
  intros Hnet Hbody Hpre Hp Hd. unfold Server.worker_iteration.
  erewrite bind_done by (by eapply comm_recv_run).
  rewrite Hbody. erewrite bind_done by reflexivity.
  unfold get_is. rewrite Hd. by rewrite bool_decide_eq_true_2.
Qed.

(** A loop that has stopped has returned: more fuel changes nothing. *)
Lemma ft_worker_process_stopped fuel rank w w' :
  FileTransfer.worker_process fuel rank w = (Done Stopped, w') →
  FileTransfer.worker_process (S fuel) rank w = (Done Stopped, w').
Proof.
  revert w. induction fuel as [|fuel IH]; intros w; [done|].
  cbn [FileTransfer.worker_process]. rewrite !bind_run.
  destruct (FileTransfer.worker_iteration rank w) as [[[]| |] w1]; try done.
  intros H. apply IH in H. cbn [FileTransfer.worker_process] in H.
  by rewrite bind_run in H.
Qed.

Lemma srv_worker_process_stopped fuel rank w w' :
  Server.worker_process fuel rank w = (Done Stopped, w') →
  Server.worker_process (S fuel) rank w = (Done Stopped, w').
Proof.
  revert w. induction fuel as [|fuel IH]; intros w; [done|].
  cbn [Server.worker_process]. rewrite !bind_run.
  destruct (Server.worker_iteration rank w) as [[[]| |] w1]; try done.
  intros H. apply IH in H. cbn [Server.worker_process] in H.
  by rewrite bind_run in H.
Qed.

(** C9.  When the first message a worker finds on its task channel is a
    shutdown notice, its loop ends in the state [Stopped] having taken that
    one packet: nothing is written, nothing is sent, and everything else in
    flight -- a second shutdown notice, further assignments -- stays
    undelivered, however long the worker would otherwise have run.  This
    holds for the worker of [file_transfer.py] and for that of
    [server.py]. *)
Theorem shutdown_stops_worker fuel rank w pre p rest d :
  net w = pre ++ p :: rest →
  p_body p = Obj d →
  (Forall (λ q, matches rank 0 30 q = false) pre →
   matches rank 0 30 p = true →
   d !! "task" = Some (PStr "shutdown") →
   FileTransfer.worker_process (S fuel) rank w
   = (Done Stopped, World (files w) (pre ++ rest) (sent w)))
  ∧ (Forall (λ q, matches rank 0 10 q = false) pre →
     matches rank 0 10 p = true →
     d !! "type" = Some (PStr "shutdown") →
     Server.worker_process (S fuel) rank w
     = (Done Stopped, World (files w) (pre ++ rest) (sent w))).
Proof.
  intros Hnet Hbody. split; intros Hpre Hp Hd.
  - cbn [FileTransfer.worker_process].
    by erewrite bind_done by (by eapply ft_worker_iteration_shutdown).
  - cbn [Server.worker_process].
    by erewrite bind_done by (by eapply srv_worker_iteration_shutdown).
Qed.

Lemma shutdown_stops_worker_witness :
  let chunk := Packet 1 (Rank 2) 100 (Raw [x01]) in
  let stop30 := Packet 0 (Rank 2) 30 (Obj {[ "task" := PStr "shutdown" ]}) in
  let task30 :=
    Packet 0 (Rank 2) 30 (Obj (FileTransfer.task_message 1 0 1 "f.part2")) in
  let stop10 := Packet 0 (Rank 2) 10 (Obj {[ "type" := PStr "shutdown" ]}) in
  let task10 := Packet 0 (Rank 2) 10 (Obj (Server.work_data 1 0 1 "f")) in
  FileTransfer.worker_process 3 2 (World ∅ [chunk; stop30; stop30; task30] [])
  = (Done Stopped, World ∅ [chunk; stop30; task30] [])
  ∧ Server.worker_process 3 2 (World ∅ [chunk; stop10; stop10; task10] [])
    = (Done Stopped, World ∅ [chunk; stop10; task10] []).
Proof.
  intros chunk stop30 task30 stop10 task10. split.
  - apply (proj1 (shutdown_stops_worker 2 2
                    (World ∅ [chunk; stop30; stop30; task30] [])
                    [chunk] stop30 [stop30; task30]
                    {[ "task" := PStr "shutdown" ]} eq_refl eq_refl));
      [repeat constructor|reflexivity|reflexivity].
  - apply (proj2 (shutdown_stops_worker 2 2
                    (World ∅ [chunk; stop10; stop10; task10] [])
                    [chunk] stop10 [stop10; task10]
                    {[ "type" := PStr "shutdown" ]} eq_refl eq_refl));
      [repeat constructor|reflexivity|reflexivity].
Defined.

(** ** The RPC server *)

Lemma write_at_end (data content : list byte) :
  RpcServer.write_at (length content) data content = content ++ data.
Proof.
  unfold RpcServer.write_at.
  rewrite firstn_all, Nat.sub_diag, drop_ge by lia. simpl.
  by rewrite app_nil_r.
Qed.

Lemma start_transfer_open ts_id ts_path filename filesize s :
  open_at_end (RpcServer.start_transfer ts_id ts_path filename filesize s).2
    (filename +:+ "_" +:+ ts_id)
    (save_path RpcServer.upload_dir ts_path filename) filesize 0 [].
Proof.
  eexists. simpl. rewrite !lookup_insert_eq. done.
Qed.

Lemma upload_chunk_independent (b64decode : string → string + list byte)
    transfer_id chunk_data n1 n2 s :
  let r1 := RpcServer.upload_chunk b64decode transfer_id chunk_data n1 s in
  let r2 := RpcServer.upload_chunk b64decode transfer_id chunk_data n2 s in
  r1.1 = r2.1
  ∧ RpcServer.disk r1.2 = RpcServer.disk r2.2
  ∧ RpcServer.active_transfers r1.2 = RpcServer.active_transfers r2.2.
Proof.
  intros r1 r2. unfold r1, r2, RpcServer.upload_chunk.
  destruct (RpcServer.active_transfers s !! transfer_id) as [t|]; [|done].
  destruct (b64decode chunk_data) as [message|binary_data]; [done|].
  destruct (RpcServer.h_closed (RpcServer.t_file_handle t)); [done|].
  by case_decide.
Qed.

Lemma upload_chunk_open (b64decode : string → string + list byte)
    transfer_id chunk_data n s path filesize received content binary_data :
  open_at_end s transfer_id path filesize received content →
  b64decode chunk_data = inr binary_data →
  let r := RpcServer.upload_chunk b64decode transfer_id chunk_data n s in
  open_at_end r.2 transfer_id path filesize
    (received + length binary_data) (content ++ binary_data)
  ∧ RpcServer.disk r.2 = <[path := content ++ binary_data]> (RpcServer.disk s).
Proof.
  intros (t & Ht & Hpath & Hopen & Hpos & Hfp & Hsize & Hrecv & Hdisk) Hdec r.
  unfold r, RpcServer.upload_chunk. rewrite Ht, Hdec, Hopen, Hpath, Hdisk, Hpos.
  simpl. rewrite write_at_end.
  case_decide; simpl; (split; [|done]); eexists; simpl;
    rewrite !lookup_insert_eq; (split; [reflexivity|]); simpl;
    rewrite length_app; repeat split; first [done|lia].
Qed.

(** C10.  [upload_chunk] uses [chunk_number] only in the line it prints: the
    response, the files and the table of transfers are the same for any two
    chunk numbers.  On a registered transfer whose handle is open at the end
    of its file, a chunk that decodes is appended to that file and to no
    other, the handle stays at the end and the byte count grows by the length
    of the decoded data, so successive calls append in call order. *)
Theorem upload_chunk_appends (b64decode : string → string + list byte)
    transfer_id chunk_data n1 n2 s :
  let r1 := RpcServer.upload_chunk b64decode transfer_id chunk_data n1 s in
  let r2 := RpcServer.upload_chunk b64decode transfer_id chunk_data n2 s in
  (r1.1 = r2.1
   ∧ RpcServer.disk r1.2 = RpcServer.disk r2.2
   ∧ RpcServer.active_transfers r1.2 = RpcServer.active_transfers r2.2)
  ∧ (∀ path filesize received content binary_data,
       open_at_end s transfer_id path filesize received content →
       b64decode chunk_data = inr binary_data →
       open_at_end r1.2 transfer_id path filesize
         (received + length binary_data) (content ++ binary_data)
       ∧ RpcServer.disk r1.2 = <[path := content ++ binary_data]> (RpcServer.disk s)).
Proof.
  intros r1 r2. split.
  - apply upload_chunk_independent.
  - intros path filesize received content binary_data Hopen Hdec.
    by apply upload_chunk_open.
Qed.

Lemma upload_chunk_appends_witness :
  let b64decode := λ _ : string, inr [x68; x69] : string + list byte in
  let s := (RpcServer.start_transfer "T" "T" "a" 2 (RpcServer.Server ∅ ∅ [])).2 in
  let r := RpcServer.upload_chunk b64decode "a_T" "aGk=" (PInt 1) s in
  open_at_end s "a_T" "uploads/received_T_a" 2 0 []
  ∧ open_at_end r.2 "a_T" "uploads/received_T_a" 2 2 [x68; x69].
Proof.
  intros b64decode s r.
  assert (H : open_at_end s "a_T" "uploads/received_T_a" 2 0 [])
    by apply (start_transfer_open "T" "T" "a" 2).
  split; [exact H|].
  apply (proj2 (upload_chunk_appends b64decode "a_T" "aGk=" (PInt 1) (PInt 1) s)
           "uploads/received_T_a" 2 0 [] [x68; x69] H eq_refl).
Defined.

(** ** The RPC client against the RPC server *)

Lemma finish_transfer_mismatch transfer_id s transfer content :
  RpcServer.active_transfers s !! transfer_id = Some transfer →
  RpcServer.disk s !! RpcServer.t_filepath transfer = Some content →
  length content ≠ RpcServer.t_filesize transfer →
  RpcServer.finish_transfer transfer_id s
  = ({[ "status" := PStr "warning";
        "message" := PStr (RpcServer.size_mismatch
                             (RpcServer.t_filesize transfer) (length content)) ]},
     RpcServer.Server (RpcServer.disk s)
       (<[transfer_id := RpcServer.closed transfer]> (RpcServer.active_transfers s))
       (RpcServer.stdout s
        ++ [RpcServer.LWarning (RpcServer.t_filesize transfer) (length content)])).
Proof.
  intros Ht Hd Hne. unfold RpcServer.finish_transfer.
  by rewrite Ht, Hd, decide_False.
Qed.

Lemma finish_transfer_match transfer_id s transfer content :
  RpcServer.active_transfers s !! transfer_id = Some transfer →
  RpcServer.disk s !! RpcServer.t_filepath transfer = Some content →
  length content = RpcServer.t_filesize transfer →
  RpcClient.finalize (RpcServer.finish_transfer transfer_id s).1 = true
  ∧ RpcServer.disk (RpcServer.finish_transfer transfer_id s).2 = RpcServer.disk s.
Proof.
  intros Ht Hd Heq. unfold RpcServer.finish_transfer.
  by rewrite Ht, Hd, decide_True.
Qed.

(** ** Marshalling *)



Lemma marshals_dict_Forall d :
  map_Forall (λ _ v, RpcClient.marshals v = true) d →
  RpcClient.marshals_dict d = true.
Proof.
  intros H. unfold RpcClient.marshals_dict. apply forallb_forall.
  intros [k v] Hin. apply (H k). apply elem_of_map_to_list.
  by apply list_elem_of_In.
Qed.

Ltac marshals_dict :=
  apply marshals_dict_Forall; cbn [fst]; unfold RpcServer.error;
  repeat match goal with
         | |- map_Forall _ (<[_ := _]> _) => apply map_Forall_insert_2
         | |- map_Forall _ {[ _ := _ ]} => apply map_Forall_singleton
         | |- map_Forall _ ∅ => apply map_Forall_empty
         end;
  try done.


Lemma call_some args method s response s1 :
  RpcClient.call args method s = (Some response, s1) →
  method s = (response, s1).
Proof.
  unfold RpcClient.call. destruct (forallb _ _); [|done].
  destruct (method s) as [r s']. destruct (RpcClient.marshals_dict r); [|done].
  by intros [= -> ->].
Qed.

Lemma call_state args method s :
  (RpcClient.call args method s).2 = s
  ∨ (RpcClient.call args method s).2 = (method s).2.
Proof.
  unfold RpcClient.call. destruct (forallb _ _); [|by left].
  destruct (method s) as [r s']. right.
  by destruct (RpcClient.marshals_dict r).
Qed.

Lemma call_state_run args method s :
  forallb RpcClient.marshals args = true →
  (RpcClient.call args method s).2 = (method s).2.
Proof.
  intros Hargs. unfold RpcClient.call. rewrite Hargs.
  destruct (method s) as [r s']. by destruct (RpcClient.marshals_dict r).
Qed.

Section Codec.

Variable b64encode : list byte → string.
Variable b64decode : string → string + list byte.
Hypothesis decode_encode : ∀ chunk, b64decode (b64encode chunk) = inr chunk.




End Codec.




(** ** Reassembly in [file_transfer.py] *)



Lemma insert_by_start_sorted a l :
  Sorted (λ x y, FileTransfer.start_of x ≤ FileTransfer.start_of y) l →
  Sorted (λ x y, FileTransfer.start_of x ≤ FileTransfer.start_of y)
    (FileTransfer.insert_by_start a l).
Proof.
  induction 1 as [|b l Hl IH Hb]; simpl; [by repeat constructor|].
  case_bool_decide as Hab.
  - by repeat constructor.
  - constructor; [done|].
    destruct Hb as [|c l' Hbc]; simpl.
    + constructor. lia.
    + case_bool_decide; constructor; [lia|done].
Qed.

(** [sorted(assignments, key=start)] is in ascending order of start chunk. *)
Lemma sorted_by_start_sorted l :
  Sorted (λ x y, FileTransfer.start_of x ≤ FileTransfer.start_of y)
    (FileTransfer.sorted_by_start l).
Proof.
  induction l as [|a l IH]; simpl; [constructor|].
  by apply insert_by_start_sorted.
Qed.


(** The third loop of [coordinate_parallel_transfer]: every partial file is
    read, appended to the output and removed. *)
Lemma reassemble_loop filepath l :
  NoDup (FileTransfer.part_of <$> l) →
  filepath ∉ FileTransfer.part_of <$> l →
  ∀ w acc,
  (∀ a, a ∈ l → is_Some (files w !! FileTransfer.part_of a)) →
  files w !! filepath = Some acc →
  ∃ fs,
    for_each l (λ a,
      data ← read_file (FileTransfer.part_of a);
      f_write filepath data ;;
      os_remove (FileTransfer.part_of a)) w
    = (Done tt, World fs (net w) (sent w))
    ∧ fs !! filepath = Some (acc ++ concat (content_of (files w) <$> l))
    ∧ (∀ a, a ∈ l → fs !! FileTransfer.part_of a = None)
    ∧ (∀ p, p ≠ filepath → p ∉ FileTransfer.part_of <$> l →
            fs !! p = files w !! p).
Proof.
  induction l as [|a l IH]; intros Hnd Hfp w acc Hparts Hacc.
  - exists (files w). destruct w. simpl in *. rewrite app_nil_r.
    repeat split; try done. intros a Ha. by apply elem_of_nil in Ha.
  - rewrite fmap_cons in Hnd, Hfp.
    apply NoDup_cons in Hnd as [Ha Hnd].
    apply not_elem_of_cons in Hfp as [Hfa Hfp].
    destruct (Hparts a) as [data Hdata]; [by left|].
    set (w2 := World (delete (FileTransfer.part_of a)
                        (<[filepath := acc ++ data]> (files w))) (net w) (sent w)).
    assert (Hstep : (data' ← read_file (FileTransfer.part_of a);
                     f_write filepath data' ;;
                     os_remove (FileTransfer.part_of a)) w = (Done tt, w2)).
    { unfold read_file, f_write, os_remove.
      cbv beta iota delta [mbind M_bind]. rewrite Hdata. simpl.
      rewrite Hacc. simpl. by rewrite lookup_insert_ne, Hdata. }
    assert (Hkeep : ∀ b, b ∈ l →
              files w2 !! FileTransfer.part_of b = files w !! FileTransfer.part_of b).
    { intros b Hb. simpl.
      rewrite lookup_delete_ne, lookup_insert_ne; [done| |].
      - intros ->. apply Hfp, list_elem_of_fmap. eauto.
      - intros Heq. apply Ha. rewrite Heq. apply list_elem_of_fmap. eauto. }
    destruct (IH Hnd Hfp w2 (acc ++ data)) as (fs & Hrun & Hout & Hgone & Hother).
    { intros b Hb. rewrite Hkeep by done. apply Hparts. by right. }
    { simpl. by rewrite lookup_delete_ne, lookup_insert_eq. }
    exists fs. cbn [for_each]. erewrite bind_done by exact Hstep.
    split; [exact Hrun|]. split; [|split].
    + rewrite Hout, <- app_assoc. do 2 f_equal. cbn [fmap list_fmap concat].
      unfold content_of at 2. rewrite Hdata. simpl. f_equal. f_equal.
      apply list_fmap_ext. intros i b Hb. unfold content_of.
      rewrite Hkeep; [done|]. by eapply list_elem_of_lookup_2.
    + intros b [->|Hb]%elem_of_cons; [|by apply Hgone].
      rewrite Hother by done. simpl. by rewrite lookup_delete_eq.
    + intros p Hp Hnotin. rewrite fmap_cons in Hnotin.
      apply not_elem_of_cons in Hnotin as [Hpa Hpl].
      rewrite Hother by done. simpl.
      by rewrite lookup_delete_ne, lookup_insert_ne.
Qed.


(** ** Reception by the workers of [file_transfer.py] *)



Lemma matches_tag me source tag q :
  p_tag q ≠ tag → matches me source tag q = false.
Proof.
  intros H. unfold matches. rewrite (bool_decide_eq_false_2 (p_tag q = tag)) by done.
  by rewrite andb_false_r.
Qed.

Lemma no_match_tag me source tag (P : packet → Prop) l :
  Forall P l → (∀ q, P q → p_tag q ≠ tag) →
  Forall (λ q, matches me source tag q = false) l.
Proof.
  intros Hl HP. eapply Forall_impl; [exact Hl|].
  intros q Hq. apply matches_tag, HP, Hq.
Qed.







(** ** Paths of the partial files *)







(** ** Chunks addressed to their owners *)



(** ** A parallel transfer in [file_transfer.py] *)






(** ** A parallel transfer in [server.py] *)









Lemma srv_receiver_direct size source num_chunks :
  Server.available_workers size source = [] →
  srv_receiver size source num_chunks = λ _, 0.
Proof. intros Hc. unfold srv_receiver. by rewrite Hc. Qed.



(** C1 fails on [server.py].  A one-byte file announced by rank 1 among
    three processes is one chunk, which the master assigns to worker 2.
    With that chunk in flight addressed to worker 2, the worker, running
    while the master waits for its notice, writes the byte to its partial
    file and the master declares success to the sender; the final path it
    announced does not exist. *)
Lemma server_leaves_no_final_file :
  let path := save_path Server.upload_dir "T" "a" in
  let chunk := Packet 1 (Rank 2) 100 (Obj {[ "data" := PBytes [x2a] ]}) in
  let r :=
    Server.master_transfer 3 "T" (Client.transfer_request 1 "a" 1 1)
      (World ∅ [chunk] []) in
  r.1 = Done tt
  ∧ last (sent r.2) = Some (Packet 0 (Rank 1) 3 (Obj {[ "status" := PStr "complete" ]}))
  ∧ files r.2 !! path = None.
Proof. by vm_compute. Qed.

(** C4 fails on [server.py].  After the same transfer has completed, the
    partial file of worker 2 is still on disk and holds the data; nothing
    was appended to a final output and nothing was deleted. *)
Lemma server_keeps_partial_files :
  let path := save_path Server.upload_dir "T" "a" in
  let chunk := Packet 1 (Rank 2) 100 (Obj {[ "data" := PBytes [x2a] ]}) in
  let r :=
    Server.master_transfer 3 "T" (Client.transfer_request 1 "a" 1 1)
      (World ∅ [chunk] []) in
  r.1 = Done tt
  ∧ files r.2 = {[ part_path path 2 := [x2a] ]}.
Proof. by vm_compute. Qed.

(** ** The chunks of a file *)

Lemma take_nil_iff {A} n (l : list A) : n ≠ 0 → take n l = [] → l = [].
Proof. destruct n, l; simpl; done. Qed.

Lemma read_loop_lookup chunk_size fuel :
  chunk_size ≠ 0 →
  ∀ data i,
  length data < fuel →
  read_loop fuel chunk_size data !! i
  = if decide (i * chunk_size < length data)
    then Some (take chunk_size (drop (i * chunk_size) data))
    else None.
Proof.
  intros Hcs. induction fuel as [|fuel IH]; intros data i Hlen; [lia|].
  cbn [read_loop]. destruct (take chunk_size data) as [|b chunk] eqn:Htake.
  - apply take_nil_iff in Htake; [|done]. subst data.
    case_decide as Hi; [cbn [length] in Hi; lia|done].
  - assert (Hne : data ≠ []) by (intros ->; by rewrite take_nil in Htake).
    assert (0 < length data) by (destruct data; cbn [length]; [done|lia]).
    rewrite <- Htake. destruct i as [|i].
    + case_decide; [done|lia].
    + change ((take chunk_size data
               :: read_loop fuel chunk_size (drop chunk_size data)) !! S i)
        with (read_loop fuel chunk_size (drop chunk_size data) !! i).
      rewrite IH by (rewrite length_drop; lia).
      rewrite length_drop, drop_drop.
      replace (chunk_size + i * chunk_size) with (S i * chunk_size) by lia.
      repeat case_decide; first [done|lia].
Qed.

Lemma read_loop_length chunk_size fuel :
  chunk_size ≠ 0 →
  ∀ data,
  length data < fuel →
  length (read_loop fuel chunk_size data)
  = (length data + chunk_size - 1) / chunk_size.
Proof.
  intros Hcs. induction fuel as [|fuel IH]; intros data Hlen; [lia|].
  simpl. destruct (take chunk_size data) as [|b chunk] eqn:Htake.
  - apply take_nil_iff in Htake; [|done]. subst data. simpl.
    symmetry. apply Nat.div_small. lia.
  - assert (Hne : data ≠ []) by (intros ->; by rewrite take_nil in Htake).
    assert (Hpos : 0 < length data) by (destruct data; simpl; [done|lia]).
    simpl. rewrite IH by (rewrite length_drop; lia). rewrite length_drop.
    replace (length data + chunk_size - 1)
      with (length data - 1 + 1 * chunk_size) by lia.
    rewrite Nat.div_add by done.
    destruct (decide (length data ≤ chunk_size)).
    + replace (length data - chunk_size + chunk_size - 1)
        with (chunk_size - 1) by lia.
      rewrite !Nat.div_small by lia. done.
    + replace (length data - chunk_size + chunk_size - 1)
        with (length data - 1) by lia. lia.
Qed.

(** The read loop of the senders cuts the file into consecutive slices of
    [chunk_size] bytes: chunk [i] is the bytes from [i * chunk_size] on, the
    number of chunks is the size divided by [chunk_size], rounded up, no chunk
    is empty and the chunks, concatenated, are the file. *)
Theorem read_chunks_slices chunk_size data :
  chunk_size ≠ 0 →
  let chunks := read_chunks chunk_size data in
  length chunks = (length data + chunk_size - 1) / chunk_size
  ∧ (∀ i, i < length chunks →
          chunks !! i = Some (take chunk_size (drop (i * chunk_size) data)))
  ∧ Forall (λ chunk, 0 < length chunk ≤ chunk_size) chunks
  ∧ concat chunks = data.
Proof.
  intros Hcs chunks.
  assert (Hlook : ∀ i, chunks !! i
            = if decide (i * chunk_size < length data)
              then Some (take chunk_size (drop (i * chunk_size) data))
              else None)
    by (intros i; apply read_loop_lookup; [done|lia]).
  split; [apply read_loop_length; [done|lia]|].
  split; [|split].
  - intros i Hi. apply lookup_lt_is_Some in Hi as [c Hc].
    rewrite Hlook in Hc |- *. by case_decide.
  - apply Forall_lookup. intros i c Hc. rewrite Hlook in Hc.
    case_decide; [|done]. injection Hc as <-.
    rewrite length_take, length_drop. lia.
  - by apply read_chunks_concat.
Qed.

Lemma read_chunks_slices_witness :
  let chunks := read_chunks 2 [x01; x02; x03; x04; x05] in
  length chunks = (5 + 2 - 1) / 2
  ∧ (∀ i, i < length chunks →
          chunks !! i = Some (take 2 (drop (i * 2) [x01; x02; x03; x04; x05])))
  ∧ Forall (λ chunk, 0 < length chunk ≤ 2) chunks
  ∧ concat chunks = [x01; x02; x03; x04; x05].
Proof. apply (read_chunks_slices 2 [x01; x02; x03; x04; x05]). lia. Defined.

(** ** The request loops of the two masters *)

Lemma for_each_send_run {A} me (f : A → body) (d : A → nat) tag (xs : list A) :
  ∀ w,
  for_each xs (λ x, comm_send me (f x) (Rank (d x)) tag) w
  = (Done tt,
     after_sending ((λ x, Packet me (Rank (d x)) tag (f x)) <$> xs) w).
Proof.
  induction xs as [|x xs IH]; intros w.
  - simpl. by rewrite after_sending_nil.
  - cbn [for_each]. erewrite bind_done by apply comm_send_run.
    by rewrite IH, after_sending_app.
Qed.

Lemma ft_broadcast_shutdown_run size w :
  FileTransfer.broadcast_shutdown size w
  = (Done tt, after_sending (shutdown_task <$> seq 1 (size - 1)) w).
Proof.
  unfold FileTransfer.broadcast_shutdown.
  by rewrite (for_each_send_run 0 (λ _, Obj {[ "task" := PStr "shutdown" ]})
                (λ i, i)).
Qed.

Lemma ft_master_iteration_shutdown size a w :
  a_request a !! "type" = Some (PStr "shutdown") →
  FileTransfer.master_iteration size a w
  = (Done false, after_sending (shutdown_task <$> seq 1 (size - 1)) w).
Proof.
  intros Ht. unfold FileTransfer.master_iteration, getitem. rewrite Ht.
  erewrite bind_done by reflexivity.
  replace (eq_str (PStr "shutdown") "send_file") with false by reflexivity.
  replace (eq_str (PStr "shutdown") "list") with false by reflexivity.
  replace (eq_str (PStr "shutdown") "shutdown") with true by reflexivity.
  by erewrite bind_done by apply ft_broadcast_shutdown_run.
Qed.

Lemma srv_master_iteration_shutdown size a w :
  a_request a !! "type" = Some (PStr "shutdown") →
  Server.master_iteration size a w
  = (Done false, after_sending (shutdown_work <$> seq 1 (size - 1)) w).
Proof.
  intros Ht. unfold Server.master_iteration, getitem. rewrite Ht.
  erewrite bind_done by reflexivity.
  replace (eq_str (PStr "shutdown") "transfer") with false by reflexivity.
  replace (eq_str (PStr "shutdown") "list") with false by reflexivity.
  replace (eq_str (PStr "shutdown") "shutdown") with true by reflexivity.
  by erewrite bind_done
    by apply (for_each_send_run 0 (λ _, Obj {[ "type" := PStr "shutdown" ]})
                (λ i, i)).
Qed.

(** *** The notices that stay in flight *)

Lemma filter_not_elem_of_cons (x : nat) (ws l : list nat) :
  x ∉ l →
  filter (λ r, r ∉ x :: ws) l = filter (λ r, r ∉ ws) l.
Proof.
  induction l as [|y l IH]; intros Hx; [done|].
  apply not_elem_of_cons in Hx as [Hxy Hx].
  rewrite !filter_cons, IH by done.
  destruct (decide (y ∉ x :: ws)) as [H1|H1], (decide (y ∉ ws)) as [H2|H2];
    try done.
  - exfalso. apply H2. intros ?. apply H1. by right.
  - exfalso. apply H1. intros [->|?]%elem_of_cons; done.
Qed.

Lemma undelivered_step (x : nat) (ws r1 r2 : list nat) :
  x ∉ r1 → x ∉ r2 →
  filter (λ r, r ∉ x :: ws) (r1 ++ x :: r2) = filter (λ r, r ∉ ws) (r1 ++ r2).
Proof.
  intros H1 H2. rewrite !filter_app, filter_cons_False.
  - by rewrite !filter_not_elem_of_cons.
  - intros H. apply H. by left.
Qed.

Lemma shutdown_task_other (x : nat) tag (mk : nat → packet) (l : list nat) :
  (∀ r, p_dst (mk r) = Rank r) →
  x ∉ l →
  Forall (λ q, matches x 0 tag q = false) (mk <$> l).
Proof.
  intros Hmk Hx. apply Forall_fmap, Forall_forall. intros r Hr.
  unfold compose, matches. rewrite Hmk. simpl.
  rewrite (bool_decide_eq_false_2 (r = x)) by (by intros ->).
  by rewrite andb_false_r.
Qed.

Lemma ft_workers_stop fuel workers :
  ∀ w pre ranks,
  net w = pre ++ (shutdown_task <$> ranks) →
  Forall (λ q, p_tag q ≠ 30) pre →
  NoDup ranks →
  NoDup workers →
  workers ⊆ ranks →
  for_all workers (FileTransfer.worker_process (S fuel)) w
  = (Done (replicate (length workers) Stopped),
     World (files w)
       (pre ++ (shutdown_task <$> filter (λ r, r ∉ workers) ranks))
       (sent w)).
Proof.
  induction workers as [|x workers IH];
    intros w pre ranks Hnet Hpre Hndr Hndw Hsub.
  - simpl. rewrite (filter_all (λ r, r ∉ [])).
    + destruct w. simpl in *. by subst.
    + apply Forall_forall. intros r _. apply not_elem_of_nil.
  - apply NoDup_cons in Hndw as [Hxw Hndw].
    assert (Hx : x ∈ ranks) by (apply Hsub; by left).
    apply list_elem_of_split in Hx as (r1 & r2 & ->).
    apply NoDup_app in Hndr as (Hnd1 & Hx1 & Hnd2).
    apply NoDup_cons in Hnd2 as [Hx2 Hnd2].
    assert (Hxr1 : x ∉ r1) by (intros H; by apply (Hx1 x H); left).
    rewrite fmap_app, fmap_cons, app_assoc in Hnet.
    cbn [for_all FileTransfer.worker_process].
    assert (Hit : FileTransfer.worker_iteration x w
                  = (Done Stopped,
                     World (files w)
                       ((pre ++ (shutdown_task <$> r1)) ++ (shutdown_task <$> r2))
                       (sent w))).
    { eapply ft_worker_iteration_shutdown; [exact Hnet|reflexivity| | |reflexivity].
      - apply Forall_app. split.
        + eapply no_match_tag; [exact Hpre|done].
        + by apply shutdown_task_other.
      - unfold matches. simpl. by rewrite !bool_decide_eq_true_2. }
    erewrite bind_done; [|by erewrite bind_done by exact Hit].
    erewrite bind_done.
    2:{ apply (IH _ pre (r1 ++ r2)).
        - simpl. by rewrite fmap_app, app_assoc.
        - done.
        - apply NoDup_app. split; [done|]. split; [|done].
          intros y Hy1 Hy2. apply (Hx1 y Hy1). by right.
        - done.
        - intros y Hy. specialize (Hsub y (list_elem_of_further _ _ _ Hy)).
          apply elem_of_app in Hsub as [?|[->|?]%elem_of_cons];
            [apply elem_of_app; by left|done|apply elem_of_app; by right]. }
    cbn [files sent length replicate]. by rewrite undelivered_step.
Qed.

Lemma srv_workers_stop fuel workers :
  ∀ w pre ranks,
  net w = pre ++ (shutdown_work <$> ranks) →
  Forall (λ q, p_tag q ≠ 10) pre →
  NoDup ranks →
  NoDup workers →
  workers ⊆ ranks →
  for_all workers (Server.worker_process (S fuel)) w
  = (Done (replicate (length workers) Stopped),
     World (files w)
       (pre ++ (shutdown_work <$> filter (λ r, r ∉ workers) ranks))
       (sent w)).
Proof.
  induction workers as [|x workers IH];
    intros w pre ranks Hnet Hpre Hndr Hndw Hsub.
  - simpl. rewrite (filter_all (λ r, r ∉ [])).
    + destruct w. simpl in *. by subst.
    + apply Forall_forall. intros r _. apply not_elem_of_nil.
  - apply NoDup_cons in Hndw as [Hxw Hndw].
    assert (Hx : x ∈ ranks) by (apply Hsub; by left).
    apply list_elem_of_split in Hx as (r1 & r2 & ->).
    apply NoDup_app in Hndr as (Hnd1 & Hx1 & Hnd2).
    apply NoDup_cons in Hnd2 as [Hx2 Hnd2].
    assert (Hxr1 : x ∉ r1) by (intros H; by apply (Hx1 x H); left).
    rewrite fmap_app, fmap_cons, app_assoc in Hnet.
    cbn [for_all Server.worker_process].
    assert (Hit : Server.worker_iteration x w
                  = (Done Stopped,
                     World (files w)
                       ((pre ++ (shutdown_work <$> r1)) ++ (shutdown_work <$> r2))
                       (sent w))).
    { eapply srv_worker_iteration_shutdown; [exact Hnet|reflexivity| | |reflexivity].
      - apply Forall_app. split.
        + eapply no_match_tag; [exact Hpre|done].
        + by apply shutdown_task_other.
      - unfold matches. simpl. by rewrite !bool_decide_eq_true_2. }
    erewrite bind_done; [|by erewrite bind_done by exact Hit].
    erewrite bind_done.
    2:{ apply (IH _ pre (r1 ++ r2)).
        - simpl. by rewrite fmap_app, app_assoc.
        - done.
        - apply NoDup_app. split; [done|]. split; [|done].
          intros y Hy1 Hy2. apply (Hx1 y Hy1). by right.
        - done.
        - intros y Hy. specialize (Hsub y (list_elem_of_further _ _ _ Hy)).
          apply elem_of_app in Hsub as [?|[->|?]%elem_of_cons];
            [apply elem_of_app; by left|done|apply elem_of_app; by right]. }
    cbn [files sent length replicate]. by rewrite undelivered_step.
Qed.

(** A shutdown request ends the service of [file_transfer.py].  The master
    sends one shutdown notice to every rank from 1 to [size - 1] and leaves
    its loop without serving the requests that arrive later.  Whichever
    ranks run the worker loop, and in whatever order they run, each takes
    its own notice and stops; the notices addressed to the other ranks --
    the rank of the requesting client among them -- stay in flight and are
    never received.  No file is touched. *)
Theorem ft_shutdown_stops_workers size fuel a later workers w :
  a_request a !! "type" = Some (PStr "shutdown") →
  Forall (λ q, p_tag q ≠ 30) (net w) →
  NoDup workers →
  workers ⊆ seq 1 (size - 1) →
  (FileTransfer.master_process size (a :: later) ;;
   for_all workers (FileTransfer.worker_process (S fuel))) w
  = (Done (replicate (length workers) Stopped),
     World (files w)
       (net w ++ (shutdown_task
                    <$> filter (λ r, r ∉ workers) (seq 1 (size - 1))))
       (sent w ++ (shutdown_task <$> seq 1 (size - 1)))).
Proof.
  intros Ht Hnet Hnd Hsub. cbn [FileTransfer.master_process].
  erewrite bind_done.
  2:{ erewrite bind_done by (by apply ft_master_iteration_shutdown). reflexivity. }
  by erewrite ft_workers_stop;
    [|reflexivity|exact Hnet|apply NoDup_seq|exact Hnd|exact Hsub].
Qed.

Lemma ft_shutdown_stops_workers_witness :
  (FileTransfer.master_process 4
     [Arrival {[ "type" := PStr "shutdown" ]} 1 "T" (PList []);
      Arrival {[ "type" := PStr "list" ]} 1 "T" (PList [])] ;;
   for_all [3; 2] (FileTransfer.worker_process 1)) world0
  = (Done (replicate (length [3; 2]) Stopped),
     World (files world0)
       (net world0
        ++ (shutdown_task <$> filter (λ r, r ∉ [3; 2]) (seq 1 (4 - 1))))
       (sent world0 ++ (shutdown_task <$> seq 1 (4 - 1)))).
Proof.
  apply (ft_shutdown_stops_workers 4 0
           (Arrival {[ "type" := PStr "shutdown" ]} 1 "T" (PList []))).
  - reflexivity.
  - simpl. constructor.
  - apply NoDup_cons. split; [|apply NoDup_singleton].
    intros H. apply elem_of_cons in H as [H|H]; [discriminate|].
    by apply elem_of_nil in H.
  - intros r Hr. apply elem_of_cons in Hr as [->|Hr].
    + simpl. do 2 right. by left.
    + apply elem_of_cons in Hr as [->|Hr]; [|by apply elem_of_nil in Hr].
      simpl. right. by left.
Defined.

(** The same for [server.py]: on a shutdown request its master sends a
    notice on the work channel to every rank from 1 to [size - 1] and breaks
    out of its loop.  Whichever ranks run the worker loop each take their
    own notice and stop; the notices addressed to the other ranks, the rank
    of the client among them, stay in flight. *)
Theorem srv_shutdown_stops_workers size fuel a later workers w :
  a_request a !! "type" = Some (PStr "shutdown") →
  Forall (λ q, p_tag q ≠ 10) (net w) →
  NoDup workers →
  workers ⊆ seq 1 (size - 1) →
  (Server.master_process size (a :: later) ;;
   for_all workers (Server.worker_process (S fuel))) w
  = (Done (replicate (length workers) Stopped),
     World (files w)
       (net w ++ (shutdown_work
                    <$> filter (λ r, r ∉ workers) (seq 1 (size - 1))))
       (sent w ++ (shutdown_work <$> seq 1 (size - 1)))).
Proof.
  intros Ht Hnet Hnd Hsub. cbn [Server.master_process].
  erewrite bind_done.
  2:{ erewrite bind_done by (by apply srv_master_iteration_shutdown). reflexivity. }
  by erewrite srv_workers_stop;
    [|reflexivity|exact Hnet|apply NoDup_seq|exact Hnd|exact Hsub].
Qed.

Lemma srv_shutdown_stops_workers_witness :
  (Server.master_process 4
     [Arrival {[ "type" := PStr "shutdown"; "source_rank" := PInt 1 ]} 1 "T"
        (PList [])] ;;
   for_all [2; 3] (Server.worker_process 1)) world0
  = (Done (replicate (length [2; 3]) Stopped),
     World (files world0)
       (net world0
        ++ (shutdown_work <$> filter (λ r, r ∉ [2; 3]) (seq 1 (4 - 1))))
       (sent world0 ++ (shutdown_work <$> seq 1 (4 - 1)))).
Proof.
  apply (srv_shutdown_stops_workers 4 0
           (Arrival {[ "type" := PStr "shutdown"; "source_rank" := PInt 1 ]} 1
              "T" (PList []))).
  - reflexivity.
  - simpl. constructor.
  - apply NoDup_cons. split; [|apply NoDup_singleton].
    intros H. apply elem_of_cons in H as [H|H]; [discriminate|].
    by apply elem_of_nil in H.
  - intros r Hr. apply elem_of_cons in Hr as [->|Hr].
    + simpl. right. by left.
    + apply elem_of_cons in Hr as [->|Hr]; [|by apply elem_of_nil in Hr].
      simpl. do 2 right. by left.
Defined.

Lemma ft_master_iteration_false size a w w' :
  FileTransfer.master_iteration size a w = (Done false, w') →
  a_request a !! "type" = Some (PStr "shutdown").
Proof.
  unfold FileTransfer.master_iteration, getitem.
  destruct (a_request a !! "type") as [v|]; [|done].
  erewrite bind_done by reflexivity.
  destruct (eq_str v "send_file").
  { rewrite bind_run. by destruct (FileTransfer.handle_file_transfer _ _ _ _ _)
      as [[]]. }
  destruct (eq_str v "list").
  { rewrite bind_run. by destruct (FileTransfer.handle_list_request _ _ _)
      as [[]]. }
  destruct (eq_str v "shutdown") eqn:Hv; [|done].
  intros _. destruct v; try done. simpl in Hv.
  by apply bool_decide_eq_true in Hv as ->.
Qed.

Lemma srv_master_iteration_false size a w w' :
  Server.master_iteration size a w = (Done false, w') →
  a_request a !! "type" = Some (PStr "shutdown").
Proof.
  unfold Server.master_iteration, getitem.
  destruct (a_request a !! "type") as [v|]; [|done].
  erewrite bind_done by reflexivity.
  destruct (eq_str v "transfer").
  { rewrite bind_run. by destruct (Server.master_transfer _ _ _ _) as [[]]. }
  destruct (eq_str v "list").
  { rewrite bind_run. by destruct (a_request a !! "source_rank") as [[]|]. }
  destruct (eq_str v "shutdown") eqn:Hv; [|done].
  intros _. destruct v; try done. simpl in Hv.
  by apply bool_decide_eq_true in Hv as ->.
Qed.

(** Neither master leaves its loop of its own accord: when [master_process]
    returns, one of the requests it received was a shutdown request.  Every
    other request either keeps the loop going, blocks it or raises. *)
Theorem master_stops_only_on_shutdown size arrivals w w' :
  FileTransfer.master_process size arrivals w = (Done tt, w')
  ∨ Server.master_process size arrivals w = (Done tt, w') →
  Exists (λ a, a_request a !! "type" = Some (PStr "shutdown")) arrivals.
Proof.
  revert w. induction arrivals as [|a arrivals IH]; intros w [H|H]; try done.
  - cbn [FileTransfer.master_process] in H. rewrite bind_run in H.
    destruct (FileTransfer.master_iteration size a w) as [[[|]| |] w1] eqn:Hit;
      try done.
    + apply Exists_cons_tl, (IH w1). by left.
    + apply Exists_cons_hd. by eapply ft_master_iteration_false.
  - cbn [Server.master_process] in H. rewrite bind_run in H.
    destruct (Server.master_iteration size a w) as [[[|]| |] w1] eqn:Hit;
      try done.
    + apply Exists_cons_tl, (IH w1). by right.
    + apply Exists_cons_hd. by eapply srv_master_iteration_false.
Qed.

Lemma master_stops_only_on_shutdown_witness :
  Exists (λ a, a_request a !! "type" = Some (PStr "shutdown"))
    [Arrival {[ "type" := PStr "list" ]} 1 "T" (PList []);
     Arrival {[ "type" := PStr "shutdown" ]} 1 "T" (PList [])].
Proof.
  apply (master_stops_only_on_shutdown 2 _ world0
           (after_sending
              [listing_reply (Arrival {[ "type" := PStr "list" ]} 1 "T" (PList []));
               shutdown_task 1] world0)).
  left. reflexivity.
Defined.

(** The master of [file_transfer.py] answers list requests in the order of
    their arrival, each with one packet of tag 40 to the rank the request
    came from, carrying the listing of the upload directory; it touches no
    file and goes on with the next request. *)
Theorem ft_master_answers_listings size pre rest w :
  Forall (λ a, a_request a !! "type" = Some (PStr "list")) pre →
  FileTransfer.master_process size (pre ++ rest) w
  = FileTransfer.master_process size rest
      (after_sending (listing_reply <$> pre) w).
Proof.
  intros Hpre. revert w. induction Hpre as [|a pre Ha Hpre IH]; intros w.
  - simpl. by rewrite after_sending_nil.
  - cbn [app FileTransfer.master_process].
    erewrite bind_done.
    2:{ unfold FileTransfer.master_iteration, getitem. rewrite Ha.
        erewrite bind_done by reflexivity.
        replace (eq_str (PStr "list") "send_file") with false by reflexivity.
        replace (eq_str (PStr "list") "list") with true by reflexivity.
        by erewrite bind_done by apply comm_send_run. }
    cbv beta iota. rewrite IH, fmap_cons, after_sending_app. done.
Qed.

Lemma ft_master_answers_listings_witness :
  let a := Arrival {[ "type" := PStr "list" ]} 1 "T" (PList [PStr "f"]) in
  FileTransfer.master_process 2 ([a; a] ++ []) world0
  = FileTransfer.master_process 2 []
      (after_sending (listing_reply <$> [a; a]) world0).
Proof.
  intros a. apply (ft_master_answers_listings 2 [a; a] [] world0).
  by repeat constructor.
Defined.

(** The master of [server.py] answers a list request with one packet of tag
    4 to the rank that the request names in [source_rank], whichever rank it
    came from, and goes on with the next request. *)
Theorem srv_master_answers_listings size pre ranks rest w :
  Forall2 (λ a r, a_request a !! "type" = Some (PStr "list")
                  ∧ a_request a !! "source_rank" = Some (PInt r)) pre ranks →
  Server.master_process size (pre ++ rest) w
  = Server.master_process size rest
      (after_sending (zip_with listing_answer ranks pre) w).
Proof.
  intros Hpre. revert w. induction Hpre as [|a r pre ranks [Ha Hr] Hpre IH];
    intros w.
  - simpl. by rewrite after_sending_nil.
  - cbn [app Server.master_process].
    erewrite bind_done.
    2:{ unfold Server.master_iteration, getitem. rewrite Ha, Hr.
        erewrite bind_done by reflexivity.
        replace (eq_str (PStr "list") "transfer") with false by reflexivity.
        replace (eq_str (PStr "list") "list") with true by reflexivity.
        erewrite bind_done by reflexivity.
        by erewrite bind_done by apply comm_send_run. }
    cbv beta iota. rewrite IH. cbn [zip_with]. by rewrite after_sending_app.
Qed.

Lemma srv_master_answers_listings_witness :
  let a := Arrival {[ "type" := PStr "list"; "source_rank" := PInt 3 ]} 1 "T"
             (PList [PStr "f"]) in
  Server.master_process 4 ([a] ++ []) world0
  = Server.master_process 4 []
      (after_sending (zip_with listing_answer [3] [a]) world0).
Proof.
  intros a. apply (srv_master_answers_listings 4 [a] [3] [] world0).
  by repeat constructor.
Defined.

(** A request without a [type] field ends the service of either master: the
    lookup raises [KeyError] out of the loop before anything is sent or
    written, and the requests that arrive later are never served. *)
Theorem request_without_type_ends_service size a later w :
  a_request a !! "type" = None →
  FileTransfer.master_process size (a :: later) w = (Raise (KeyError "type"), w)
  ∧ Server.master_process size (a :: later) w = (Raise (KeyError "type"), w).
Proof.
  intros Ht. split.
  - cbn [FileTransfer.master_process]. rewrite bind_run.
    unfold FileTransfer.master_iteration, getitem. by rewrite Ht.
  - cbn [Server.master_process]. rewrite bind_run.
    unfold Server.master_iteration, getitem. by rewrite Ht.
Qed.

Lemma request_without_type_ends_service_witness :
  let a := Arrival {[ "filename" := PStr "f" ]} 1 "T" (PList []) in
  let later := [Arrival {[ "type" := PStr "shutdown" ]} 1 "T" (PList [])] in
  FileTransfer.master_process 3 (a :: later) world0
  = (Raise (KeyError "type"), world0)
  ∧ Server.master_process 3 (a :: later) world0
    = (Raise (KeyError "type"), world0).
Proof.
  intros a later. apply (request_without_type_ends_service 3 a later world0).
  reflexivity.
Defined.

(** ** Receives that nothing matches *)




Lemma bind_raised {A B} (m : M A) (k : A → M B) w e w' :
  m w = (Raise e, w') → (m ≫= k) w = (Raise e, w').
Proof. intros H. by rewrite bind_run, H. Qed.

Lemma for_each_app {A} (l1 l2 : list A) (f : A → M unit) w :
  for_each (l1 ++ l2) f w = (for_each l1 f ;; for_each l2 f) w.
Proof.
  revert w. induction l1 as [|x l1 IH]; intros w; [done|].
  cbn [app for_each]. rewrite !bind_run.
  destruct (f x w) as [[[]| |] w1]; [|done..].
  rewrite IH. by rewrite bind_run.
Qed.

(** ** Direct mode of [file_transfer.py] *)





(** ** Parallel mode of [file_transfer.py] *)



(** ** Direct mode of [server.py] *)



(** ** Parallel mode of [server.py] *)



(** ** A whole session of [file_transfer.py] *)




(** ** What a transfer over RPC leaves alone *)

Lemma upload_chunk_frame (b64decode : string → string + list byte)
    transfer_id chunk_data n s path :
  registered_on s transfer_id path →
  let r := RpcServer.upload_chunk b64decode transfer_id chunk_data n s in
  registered_on r.2 transfer_id path
  ∧ (∀ p, p ≠ path → RpcServer.disk r.2 !! p = RpcServer.disk s !! p)
  ∧ (∀ id, id ≠ transfer_id →
           RpcServer.active_transfers r.2 !! id
           = RpcServer.active_transfers s !! id).
Proof.
  intros (t & Ht & Hpath & Hfp) r. unfold r, RpcServer.upload_chunk.
  rewrite Ht.
  destruct (b64decode chunk_data) as [message|binary_data]; simpl;
    [by split; [exists t|]|].
  destruct (RpcServer.h_closed (RpcServer.t_file_handle t)); simpl;
    [by split; [exists t|]|].
  rewrite Hpath.
  assert (Hframe : ∀ (A : Type) (m : gmap string A) k v,
            ∀ k', k' ≠ k → <[k := v]> m !! k' = m !! k')
    by (intros; by rewrite lookup_insert_ne).
  case_decide; simpl; (split; [|split; apply Hframe]);
    eexists; simpl; rewrite lookup_insert_eq; by split.
Qed.

Lemma cancel_transfer_registered transfer_id s path :
  registered_on s transfer_id path →
  let r := RpcServer.cancel_transfer transfer_id s in
  r.1 !! "status" = Some (PStr "success")
  ∧ RpcServer.disk r.2 = delete path (RpcServer.disk s)
  ∧ RpcServer.active_transfers r.2
    = delete transfer_id (RpcServer.active_transfers s).
Proof.
  intros (t & Ht & Hpath & Hfp) r. unfold r, RpcServer.cancel_transfer.
  rewrite Ht. simpl. by rewrite Hfp.
Qed.

Lemma finish_transfer_frame transfer_id s :
  let r := RpcServer.finish_transfer transfer_id s in
  RpcServer.disk r.2 = RpcServer.disk s
  ∧ (∀ id, id ≠ transfer_id →
           RpcServer.active_transfers r.2 !! id
           = RpcServer.active_transfers s !! id).
Proof.
  intros r. unfold r, RpcServer.finish_transfer.
  destruct (RpcServer.active_transfers s !! transfer_id) as [t|]; [|done].
  destruct (RpcServer.disk s !! RpcServer.t_filepath t) as [content|]; simpl.
  - case_decide; simpl; (split; [done|]); intros id Hid;
      by rewrite ?lookup_delete_ne, lookup_insert_ne.
  - split; [done|]. intros id Hid. by rewrite lookup_insert_ne.
Qed.

Lemma upload_loop_frame (b64encode : list byte → string)
    (b64decode : string → string + list byte) transfer_id path filesize chunks :
  ∀ chunk_number s,
  registered_on s transfer_id path →
  let r := RpcClient.upload_loop b64encode b64decode transfer_id filesize
             chunk_number chunks s in
  (∀ p, p ≠ path → RpcServer.disk r.2 !! p = RpcServer.disk s !! p)
  ∧ (∀ id, id ≠ transfer_id →
           RpcServer.active_transfers r.2 !! id
           = RpcServer.active_transfers s !! id).
Proof.
  induction chunks as [|chunk chunks IH]; intros chunk_number s Hreg r;
    [done|].
  unfold r. cbn [RpcClient.upload_loop].
  destruct (upload_chunk_frame b64decode transfer_id (b64encode chunk)
              (PInt (chunk_number + 1)) s path Hreg) as (Hreg1 & Hd1 & Ha1).
  match goal with |- context [RpcClient.call ?args ?m s] =>
    pose proof (call_state args m s) as Hstate;
    destruct (RpcClient.call args m s) as [[response|] s1] eqn:Hcall
  end.
  - apply call_some in Hcall. rewrite Hcall in Hreg1, Hd1, Ha1.
    simpl in Hreg1, Hd1, Ha1.
    destruct (RpcClient.succeeded response) as [[|]|]; [| |done].
    + case_decide; [done|].
      destruct (IH (chunk_number + 1) s1 Hreg1) as [Hd Ha].
      split.
      * intros p Hp. by rewrite Hd, Hd1.
      * intros id Hid. by rewrite Ha, Ha1.
    + destruct (cancel_transfer_registered transfer_id s1 path Hreg1)
        as (_ & Hd & Ha).
      rewrite call_state_run by done.
      cbn [snd]. rewrite Hd, Ha. split.
      * intros p Hp. by rewrite lookup_delete_ne, Hd1.
      * intros id Hid. by rewrite lookup_delete_ne, Ha1.
  - simpl in Hstate |- *. by destruct Hstate as [->| ->].
Qed.

Lemma start_transfer_run ts_id ts_path filename filesize s :
  let transfer_id := filename +:+ "_" +:+ ts_id in
  let path := save_path RpcServer.upload_dir ts_path filename in
  let r := RpcServer.start_transfer ts_id ts_path filename filesize s in
  RpcClient.succeeded r.1 = Some true
  ∧ r.1 !! "transfer_id" = Some (PStr transfer_id)
  ∧ registered_on r.2 transfer_id path
  ∧ RpcServer.disk r.2 = <[path := []]> (RpcServer.disk s)
  ∧ (∀ id, id ≠ transfer_id →
           RpcServer.active_transfers r.2 !! id
           = RpcServer.active_transfers s !! id).
Proof.
  intros transfer_id path r. split; [reflexivity|]. split; [reflexivity|].
  split; [|split; [done|]].
  - eexists. simpl. by rewrite lookup_insert_eq.
  - intros id Hid. simpl. by rewrite lookup_insert_ne.
Qed.

(** [send_file] changes on the server only the file at the save path of its
    own transfer and only the registration under its own transfer id. *)
Lemma send_file_frame (b64encode : list byte → string)
    (b64decode : string → string + list byte)
    ts_id ts_path filename filesize data s :
  let r := RpcClient.send_file b64encode b64decode ts_id ts_path filename
             filesize data s in
  (∀ p, p ≠ save_path RpcServer.upload_dir ts_path filename →
        RpcServer.disk r.2 !! p = RpcServer.disk s !! p)
  ∧ (∀ id, id ≠ filename +:+ "_" +:+ ts_id →
           RpcServer.active_transfers r.2 !! id
           = RpcServer.active_transfers s !! id).
Proof.
  intros r. unfold r, RpcClient.send_file.
  destruct (start_transfer_run ts_id ts_path filename filesize s)
    as (Hok & Hid & Hreg & Hd1 & Ha1).
  assert (Hstart :
    (∀ p, p ≠ save_path RpcServer.upload_dir ts_path filename →
          RpcServer.disk
            (RpcServer.start_transfer ts_id ts_path filename filesize s).2 !! p
          = RpcServer.disk s !! p)).
  { intros p Hp. by rewrite Hd1, lookup_insert_ne. }
  match goal with |- context [RpcClient.call ?args ?m s] =>
    pose proof (call_state args m s) as Hstate;
    destruct (RpcClient.call args m s) as [[response|] s1] eqn:Hcall
  end.
  2:{ simpl in Hstate |- *. by destruct Hstate as [->| ->]. }
  apply call_some in Hcall. rewrite Hcall in Hok, Hid, Hreg, Hstart, Ha1.
  simpl in Hok, Hid, Hreg, Hstart, Ha1. rewrite Hok, Hid.
  destruct (upload_loop_frame b64encode b64decode _ _ filesize
              (read_chunks RpcClient.chunk_size data) 0 s1 Hreg) as [Hd2 Ha2].
  destruct (RpcClient.upload_loop _ _ _ _ _ _ s1) as [uploaded s2].
  simpl in Hd2, Ha2.
  assert (Hd : ∀ p, p ≠ save_path RpcServer.upload_dir ts_path filename →
             RpcServer.disk s2 !! p = RpcServer.disk s !! p).
  { intros p Hp. by rewrite Hd2, Hstart. }
  assert (Ha : ∀ id, id ≠ filename +:+ "_" +:+ ts_id →
             RpcServer.active_transfers s2 !! id
             = RpcServer.active_transfers s !! id).
  { intros id Hne. by rewrite Ha2, Ha1. }
  destruct uploaded; [|done].
  destruct (finish_transfer_frame (filename +:+ "_" +:+ ts_id) s2) as [Hd3 Ha3].
  match goal with |- context [RpcClient.call ?args ?m s2] =>
    pose proof (call_state args m s2) as Hstate3;
    destruct (RpcClient.call args m s2) as [[response3|] s3] eqn:Hcall3
  end.
  - apply call_some in Hcall3. rewrite Hcall3 in Hd3, Ha3.
    simpl in Hd3, Ha3 |- *. split.
    + intros p Hp. by rewrite Hd3, Hd.
    + intros id Hne. by rewrite Ha3, Ha.
  - simpl in Hstate3 |- *. destruct Hstate3 as [->| ->]; [done|].
    split.
    + intros p Hp. by rewrite Hd3, Hd.
    + intros id Hne. by rewrite Ha3, Ha.
Qed.

(** Transfers in progress do not disturb one another.  While another
    transfer is registered with an open handle at the end of its own file, a
    whole [send_file] under a different transfer id and save path -- whether
    it succeeds, fails or is cancelled, with any codec and any declared
    size -- leaves that transfer registered as it was: same file content,
    same byte count, handle still open at the end. *)
Theorem rpc_transfers_do_not_interfere (b64encode : list byte → string)
    (b64decode : string → string + list byte)
    ts_id ts_path filename filesize data s
    other_id other_path other_size received content :
  open_at_end s other_id other_path other_size received content →
  other_id ≠ filename +:+ "_" +:+ ts_id →
  other_path ≠ save_path RpcServer.upload_dir ts_path filename →
  open_at_end
    (RpcClient.send_file b64encode b64decode ts_id ts_path filename filesize
       data s).2
    other_id other_path other_size received content.
Proof.
  intros (t & Ht & Hrest) Hid Hpath.
  destruct (send_file_frame b64encode b64decode ts_id ts_path filename
              filesize data s) as [Hd Ha].
  exists t. rewrite Ha, Hd by done.
  destruct Hrest as (? & ? & ? & ? & ? & ? & ?). by repeat split.
Qed.

Lemma rpc_transfers_do_not_interfere_witness :
  let b64encode := λ chunk : list byte, String.string_of_list_byte chunk in
  let b64decode :=
    λ text : string, inr (String.list_byte_of_string text) : string + list byte in
  let s := (RpcServer.start_transfer "T" "T" "b" 3 (RpcServer.Server ∅ ∅ [])).2 in
  open_at_end s "b_T" "uploads/received_T_b" 3 0 []
  ∧ open_at_end
      (RpcClient.send_file b64encode b64decode "T" "T" "a" 2 [x68; x69] s).2
      "b_T" "uploads/received_T_b" 3 0 [].
Proof.
  intros b64encode b64decode s.
  assert (H : open_at_end s "b_T" "uploads/received_T_b" 3 0 [])
    by apply (start_transfer_open "T" "T" "b" 3).
  split; [exact H|].
  apply (rpc_transfers_do_not_interfere b64encode b64decode "T" "T" "a" 2
           [x68; x69] s "b_T" "uploads/received_T_b" 3 0 [] H).
  - vm_compute. discriminate.
  - vm_compute. discriminate.
Defined.

(** ** A complete transfer over RPC *)





(** ** Failures and their clean-up over RPC *)




(** A transfer that was finalized with a size mismatch stays registered with
    its handle closed.  From then on every chunk uploaded for it is refused
    with the message of the write to a closed file and changes neither the
    saved file nor the registration; a second [finish_transfer] repeats the
    warning; only [cancel_transfer] ends the transfer, and it removes the
    saved file. *)
Theorem rpc_closed_transfer (b64decode : string → string + list byte)
    transfer_id s transfer content chunk_data binary_data chunk_number :
  RpcServer.active_transfers s !! transfer_id = Some transfer →
  RpcServer.disk s !! RpcServer.t_filepath transfer = Some content →
  length content ≠ RpcServer.t_filesize transfer →
  b64decode chunk_data = inr binary_data →
  let s1 := (RpcServer.finish_transfer transfer_id s).2 in
  let up := RpcServer.upload_chunk b64decode transfer_id chunk_data
              chunk_number s1 in
  let cancelled := RpcServer.cancel_transfer transfer_id s1 in
  (up.1 = RpcServer.error "write to closed file"
   ∧ RpcServer.disk up.2 = RpcServer.disk s
   ∧ RpcServer.active_transfers up.2 = RpcServer.active_transfers s1)
  ∧ (RpcServer.finish_transfer transfer_id s1).1
    = (RpcServer.finish_transfer transfer_id s).1
  ∧ (cancelled.1 !! "status" = Some (PStr "success")
     ∧ RpcServer.disk cancelled.2
       = delete (RpcServer.t_filepath transfer) (RpcServer.disk s)
     ∧ RpcServer.active_transfers cancelled.2
       = delete transfer_id (RpcServer.active_transfers s)).
Proof.
  intros Ht Hd Hne Hdec s1 up cancelled.
  unfold up, cancelled, s1.
  rewrite (finish_transfer_mismatch transfer_id s transfer content Ht Hd Hne).
  cbn [fst snd]. split; [|split].
  - unfold RpcServer.upload_chunk.
    cbn [RpcServer.active_transfers]. rewrite lookup_insert_eq, Hdec. done.
  - unfold RpcServer.finish_transfer.
    cbn [RpcServer.active_transfers RpcServer.disk]. rewrite lookup_insert_eq.
    cbn [RpcServer.closed RpcServer.t_filepath RpcServer.t_filesize].
    by rewrite Hd, decide_False.
  - unfold RpcServer.cancel_transfer.
    cbn [RpcServer.active_transfers RpcServer.disk]. rewrite lookup_insert_eq.
    cbn [fst snd RpcServer.active_transfers RpcServer.disk RpcServer.closed
         RpcServer.t_filepath].
    split; [done|]. split; [done|]. by rewrite delete_insert_eq.
Qed.

Lemma rpc_closed_transfer_witness :
  let b64decode := λ _ : string, inr [x68; x69] : string + list byte in
  let s := (RpcServer.start_transfer "T" "T" "a" 5 (RpcServer.Server ∅ ∅ [])).2 in
  let s1 := (RpcServer.finish_transfer "a_T" s).2 in
  (RpcServer.upload_chunk b64decode "a_T" "aGk=" (PInt 1) s1).1
  = RpcServer.error "write to closed file"
  ∧ RpcServer.disk (RpcServer.cancel_transfer "a_T" s1).2
    = delete "uploads/received_T_a" (RpcServer.disk s).
Proof.
  intros b64decode s s1.
  destruct (rpc_closed_transfer b64decode "a_T" s
              (RpcServer.Transfer "a" "uploads/received_T_a" 5 0
                 (RpcServer.Handle "uploads/received_T_a" 0 false))
              [] "aGk=" [x68; x69] (PInt 1))
    as ((Hup & _ & _) & _ & (_ & Hdisk & _)).
  - reflexivity.
  - reflexivity.
  - simpl. lia.
  - reflexivity.
  - split; [exact Hup|exact Hdisk].
Defined.

(** A file of 2^31 bytes or more is refused by the client itself.  Its size
    is beyond the integers that XML-RPC carries, so the first call of
    [send_file], [start_transfer], raises while its arguments are marshalled;
    the handler of [send_file] returns [False], and the server, which was
    not reached, is unchanged: nothing is registered and no file is
    created. *)
Theorem rpc_oversized_file_refused (b64encode : list byte → string)
    (b64decode : string → string + list byte)
    ts_id ts_path filename filesize data s :
  (RpcClient.MAXINT < N.of_nat filesize)%N →
  RpcClient.send_file b64encode b64decode ts_id ts_path filename filesize data s
  = (false, s).
Proof.
  intros Hbig. unfold RpcClient.send_file, RpcClient.call.
  cbn [forallb RpcClient.marshals]. unfold RpcClient.marshals_int.
  by rewrite (proj2 (N.leb_gt _ _) Hbig).
Qed.

Lemma rpc_oversized_file_refused_witness :
  let b64encode := λ chunk : list byte, String.string_of_list_byte chunk in
  let b64decode :=
    λ text : string, inr (String.list_byte_of_string text) : string + list byte in
  let s := RpcServer.Server ∅ ∅ [] in
  RpcClient.send_file b64encode b64decode "T" "T" "a" (N.to_nat 2147483648) [] s
  = (false, s).
Proof.
  intros b64encode b64decode s.
  apply (rpc_oversized_file_refused b64encode b64decode "T" "T" "a"
           (N.to_nat 2147483648) [] s).
  unfold RpcClient.MAXINT. lia.
Defined.

(** ** What a worker sends *)

Lemma ft_worker_process_sends fuel rank :
  sends_only (λ p, p = done_packet rank) (FileTransfer.worker_process fuel rank).
Proof.
  induction fuel as [|fuel IH]; cbn [FileTransfer.worker_process].
  - apply sends_only_ret.
  - apply sends_only_bind.
    + unfold FileTransfer.worker_iteration. sends.
    + intros []; [exact IH|apply sends_only_ret].
Qed.

Lemma srv_worker_process_sends fuel rank :
  sends_only (λ p, p = done_notice rank) (Server.worker_process fuel rank).
Proof.
  induction fuel as [|fuel IH]; cbn [Server.worker_process].
  - apply sends_only_ret.
  - apply sends_only_bind.
    + unfold Server.worker_iteration. sends.
    + intros []; [exact IH|apply sends_only_ret].
Qed.

(** A worker talks to the master only.  However long it runs and whatever
    it receives -- assignments, malformed messages, chunks of any content --
    every packet a worker sends is its completion notice to rank 0: on tag
    31 in [file_transfer.py], on tag 11 in [server.py].  It never forwards
    chunk data and never addresses the sender or another worker. *)
Theorem workers_report_only_to_master fuel rank w :
  Forall (λ p, p = done_packet rank)
    (sent_since w (FileTransfer.worker_process fuel rank w).2)
  ∧ Forall (λ p, p = done_notice rank)
      (sent_since w (Server.worker_process fuel rank w).2).
Proof.
  split; apply sends_only_sent_since.
  - apply ft_worker_process_sends.
  - apply srv_worker_process_sends.
Qed.

(** ** The roles of a launch of [file_transfer.py] *)

(** All processes of a launch receive the same command line.  When some rank
    of the launch runs the worker loop, the launch is a server launch: every
    rank is the master or a worker, and none sends a file, asks for the
    listing or requests the shutdown.  Conversely, in a launch in which rank
    1 acts as a client no rank runs the worker loop. *)
Theorem no_worker_beside_a_client argv rank rank' :
  FileTransfer.main argv rank = FileTransfer.Worker →
  argv !! 1 = Some "--server"
  ∧ FileTransfer.main argv rank' = FileTransfer.run_server rank'.
Proof.
  unfold FileTransfer.main, FileTransfer.run_server.
  destruct (argv !! 1) as [mode|]; [|by case_decide].
  destruct (decide (mode = "--server")) as [->|Hmode]; [done|].
  repeat case_decide; done.
Qed.

Lemma no_worker_beside_a_client_witness :
  ["prog"; "--server"] !! 1 = Some "--server"
  ∧ FileTransfer.main ["prog"; "--server"] 1 = FileTransfer.run_server 1.
Proof.
  apply (no_worker_beside_a_client ["prog"; "--server"] 2 1). reflexivity.
Defined.

(** ** A partial file that is missing at reassembly *)

(** The reassembly of [file_transfer.py] is not atomic.  When the partial
    file of an assignment cannot be found, the master raises
    [FileNotFoundError] for it in the middle of the loop: the final file has
    been created and holds the partial files that precede the missing one in
    the order of start chunks, those partial files have been deleted, and
    the partial files that follow are still on disk. *)
Theorem reassemble_missing_part filepath assignments before a after w :
  FileTransfer.sorted_by_start assignments = before ++ a :: after →
  NoDup (FileTransfer.part_of <$> before) →
  filepath ∉ FileTransfer.part_of <$> before →
  (∀ b, b ∈ before → is_Some (files w !! FileTransfer.part_of b)) →
  FileTransfer.part_of a ≠ filepath →
  files w !! FileTransfer.part_of a = None →
  ∃ fs,
    FileTransfer.reassemble filepath assignments w
    = (Raise (FileNotFoundError (FileTransfer.part_of a)),
       World fs (net w) (sent w))
    ∧ fs !! filepath = Some (concat (content_of (files w) <$> before))
    ∧ (∀ b, b ∈ before → fs !! FileTransfer.part_of b = None)
    ∧ (∀ p, p ≠ filepath → p ∉ FileTransfer.part_of <$> before →
            fs !! p = files w !! p).
Proof.
  intros Hsorted Hnd Hfp Hparts Hne Hmissing.
  unfold FileTransfer.reassemble. rewrite Hsorted.
  set (w1 := World (<[filepath := []]> (files w)) (net w) (sent w)).
  erewrite (bind_done (open_wb filepath) _ w tt w1) by done.
  assert (Hkeep : ∀ b, b ∈ before →
            files w1 !! FileTransfer.part_of b = files w !! FileTransfer.part_of b).
  { intros b Hb. simpl. rewrite lookup_insert_ne; [done|].
    intros ->. apply Hfp, list_elem_of_fmap. eauto. }
  destruct (reassemble_loop filepath before Hnd Hfp w1 [])
    as (fs & Hrun & Hout & Hgone & Hother).
  { intros b Hb. rewrite Hkeep by done. by apply Hparts. }
  { simpl. by rewrite lookup_insert_eq. }
  assert (Hnotin : FileTransfer.part_of a ∉ FileTransfer.part_of <$> before).
  { intros (b & Hb & Hin)%list_elem_of_fmap.
    destruct (Hparts b Hin) as [data Hdata]. congruence. }
  exists fs. split; [|split; [|split]].
  - rewrite for_each_app. erewrite bind_done by exact Hrun.
    cbn [for_each]. do 2 apply bind_raised.
    unfold read_file. cbn [files].
    rewrite Hother by done. simpl.
    rewrite lookup_insert_ne by done. by rewrite Hmissing.
  - rewrite Hout. simpl. do 2 f_equal.
    apply list_fmap_ext. intros i b Hb. unfold content_of.
    rewrite Hkeep; [done|]. by eapply list_elem_of_lookup_2.
  - done.
  - intros p Hp Hpn. rewrite Hother by done. simpl.
    by rewrite lookup_insert_ne.
Qed.

Lemma reassemble_missing_part_witness :
  let first : FileTransfer.assignment := (2, 0, 1, "f.part2") in
  let second : FileTransfer.assignment := (3, 1, 2, "f.part3") in
  let w := World {[ "f.part2" := [x01] ]} [] [] in
  ∃ fs,
    FileTransfer.reassemble "f" [second; first] w
    = (Raise (FileNotFoundError "f.part3"), World fs [] [])
    ∧ fs !! "f" = Some (concat (content_of (files w) <$> [first]))
    ∧ (∀ b, b ∈ [first] → fs !! FileTransfer.part_of b = None)
    ∧ (∀ p, p ≠ "f" → p ∉ FileTransfer.part_of <$> [first] →
            fs !! p = files w !! p).
Proof.
  intros first second w.
  apply (reassemble_missing_part "f" [second; first] [first] second [] w).
  - reflexivity.
  - apply NoDup_singleton.
  - apply not_elem_of_cons. split; [done|apply not_elem_of_nil].
  - intros b Hb. apply elem_of_cons in Hb as [->|Hb];
      [by eexists|by apply elem_of_nil in Hb].
  - done.
  - reflexivity.
Defined.

(** ** Instances on [server.py] *)

Lemma srv_empty_file_raises_witness :
  (Server.master_transfer 3 "T" (Client.transfer_request 1 "a" 0 0) world0).1
  = Raise ZeroDivisionError.
Proof.
  apply (srv_empty_file_raises 3 "T" 1 "a" 0 world0). by vm_compute.
Defined.
